(** * Commons Explorer: the pagination controller and the AI assist controller

    A shallow embedding of [src/index.tsx].  The program is a single page of
    event handlers over module-level variables; two of the handlers are
    [async] functions.  An [async] function is embedded as the pieces between
    its [await] points: the piece that runs in the call itself, and one piece
    per way each awaited promise can settle.  A piece runs to completion
    (JavaScript is single threaded), so the program as a whole is a
    transition function [step] from a state and an event (a user action or
    the settling of a promise) to the next state.

    The two controllers read and write disjoint sets of module variables
    ([currentQuery], [gsroffset], [isLoading], [hasMore] and the results DOM
    on one side, [aiClient], [currentImageData] and the three output panes on
    the other), so each one is a state machine of its own: [Pagination] and
    [Assist].  A click on a card is the only link, and it passes a value.

    The state holds the module variables, the DOM content the handlers
    build up (the result cards, the two status elements, the three output
    panes, the loader), the calls suspended at an [await], and a log of the
    requests issued.  Writes that no handler reads back (the viewer's image,
    caption and download link, the tab classes, the scroll position, the
    console) are not part of it. *)

From Stdlib Require Import String Ascii ZArith NArith Bool Lia.
From stdpp Require Import base option list strings gmap.

Local Open Scope string_scope.
Local Open Scope list_scope.
Local Open Scope nat_scope.

(** ** Values shared by the two controllers *)

(** The argument of [openLightbox] (line 172), built by a card's click
    listener (lines 213-220). *)
Record LightboxData := {
  ld_url : string;
  ld_title : string;
  ld_author : string;
  ld_thumb : string
}.

(** [sanitizeHtml] (lines 48-52): the text is stored as a text node and read
    back as markup, which escapes ampersand, the two angle brackets and the
    no-break space (U+00A0, the bytes 194 160 in UTF-8). *)
Fixpoint sanitizeHtml (str : string) : string :=
  match str with
  | EmptyString => EmptyString
  | String c rest =>
      if Ascii.eqb c "&" then "&amp;" +:+ sanitizeHtml rest
      else if Ascii.eqb c "<" then "&lt;" +:+ sanitizeHtml rest
      else if Ascii.eqb c ">" then "&gt;" +:+ sanitizeHtml rest
      else match rest with
           | String d rest' =>
               if Ascii.eqb c (ascii_of_nat 194) && Ascii.eqb d (ascii_of_nat 160)
               then "&nbsp;" +:+ sanitizeHtml rest'
               else String c (sanitizeHtml rest)
           | EmptyString => String c EmptyString
           end
  end.

(** [s.replace(pat, rep)] with a string pattern: the first occurrence only. *)
Definition replace_first (pat rep s : string) : string :=
  match String.index 0 pat s with
  | Some i =>
      substring 0 i s +:+ rep
        +:+ substring (i + String.length pat) (String.length s - (i + String.length pat)) s
  | None => s
  end.

(** The class [[^/.]] of the regular expression on line 201, over a whole
    string. *)
Fixpoint no_slash_dot (s : string) : bool :=
  match s with
  | EmptyString => true
  | String c rest => negb (Ascii.eqb c "/") && negb (Ascii.eqb c ".") && no_slash_dot rest
  end.

(** [s.replace(/\.[^/.]+$/, "")] (line 201): the leftmost position where a
    dot is followed, up to the end of the string, by one or more characters
    that are neither a slash nor a dot; the string is cut there. *)
Fixpoint strip_extension (s : string) : string :=
  match s with
  | EmptyString => EmptyString
  | String c rest =>
      if Ascii.eqb c "." && negb (String.eqb rest EmptyString) && no_slash_dot rest
      then EmptyString
      else String c (strip_extension rest)
  end.

(** A template literal prints [undefined] for a missing value, and so does
    [+=] on a string. *)
Definition js_string (o : option string) : string :=
  match o with
  | Some s => s
  | None => "undefined"
  end.

(** [!v] for a value that is an object when it is there at all. *)
Definition missing {A} (o : option A) : bool :=
  match o with
  | Some _ => false
  | None => true
  end.

(** The double quote and the line feed, for the markup of the source. *)
Definition double_quote : string := String (ascii_of_nat 34) EmptyString.

Definition line_feed : string := String (ascii_of_nat 10) EmptyString.

(** How many double quotes the text has. *)
Fixpoint quotes (s : string) : nat :=
  match s with
  | EmptyString => 0
  | String c rest => (if Ascii.eqb c (ascii_of_nat 34) then 1 else 0) + quotes rest
  end.

(** The text has no angle bracket. *)
Fixpoint no_angle (s : string) : bool :=
  match s with
  | EmptyString => true
  | String c rest => negb (Ascii.eqb c "<") && negb (Ascii.eqb c ">") && no_angle rest
  end.

(** The text has nothing that [sanitizeHtml] rewrites: no ampersand, no
    angle bracket, and no no-break space (byte 194 followed by byte 160). *)
Fixpoint plain_text (s : string) : bool :=
  match s with
  | EmptyString => true
  | String c rest =>
      negb (Ascii.eqb c "&") && negb (Ascii.eqb c "<") && negb (Ascii.eqb c ">")
      && negb (Ascii.eqb c (ascii_of_nat 194)
               && match rest with
                  | String d _ => Ascii.eqb d (ascii_of_nat 160)
                  | EmptyString => false
                  end)
      && plain_text rest
  end.

(** ** The pagination controller *)

Module Pagination.

(** *** The search response *)

(** An own property key of an ordinary object.  [Object.values], like every
    enumeration of own keys, lists the keys that are array indices first, in
    ascending numeric order, and then the other string keys in the order
    they were created (ECMAScript, OrdinaryOwnPropertyKeys).  The search API
    keys [query.pages] by page id. *)
Inductive PropKey :=
| ArrayIndex (n : N)
| Name (s : string).

(** An object as its entries in creation order, which for a parsed JSON
    body is the order of the members in the text received. *)
Definition JsObject (A : Type) : Type := list (PropKey * A).

(** The fields of [page.imageinfo[0]] that [makeImageCard] reads;
    [ii_artist] is [info.extmetadata?.Artist?.value]. *)
Record ImageInfo := {
  ii_url : string;
  ii_thumburl : string;
  ii_user : string;
  ii_artist : option string
}.

Record Page := {
  title : string;
  imageinfo : list ImageInfo
}.

(** [response.data]: [query] and [query.pages] may be missing, and so may
    [continue], which carries the next [gsroffset]. *)
Record Query := { pages : option (JsObject Page) }.

Record ResponseData := {
  query : option Query;
  continue : option Z
}.

Definition index_entries {A} (o : JsObject A) : list (N * A) :=
  omap (λ kv, match kv.1 with ArrayIndex n => Some (n, kv.2) | Name _ => None end) o.

Definition name_entries {A} (o : JsObject A) : list A :=
  omap (λ kv, match kv.1 with ArrayIndex _ => None | Name _ => Some kv.2 end) o.

Fixpoint insert_index {A} (n : N) (v : A) (l : list (N * A)) : list (N * A) :=
  match l with
  | [] => [(n, v)]
  | (m, w) :: l' => if (n <? m)%N then (n, v) :: l else (m, w) :: insert_index n v l'
  end.

Definition sort_index {A} (l : list (N * A)) : list (N * A) :=
  foldr (λ nv acc, insert_index nv.1 nv.2 acc) [] l.

Definition Object_values {A} (o : JsObject A) : list A :=
  (sort_index (index_entries o)).*2 ++ name_entries o.

(** The values in the order the entries were received. *)
Definition received_values {A} (o : JsObject A) : list A := o.*2.

(** *** Cards *)

(** The template literal of lines 206-211 with its three holes filled: the
    string assigned to [card.innerHTML], line feeds and indentation
    included.  What the parser makes of it is the browser's. *)
Definition card_template (src alt heading : string) : string :=
  line_feed
  +:+ "        <img src=" +:+ double_quote +:+ src +:+ double_quote
  +:+ " alt=" +:+ double_quote +:+ alt +:+ double_quote
  +:+ " loading=" +:+ double_quote +:+ "lazy" +:+ double_quote +:+ ">" +:+ line_feed
  +:+ "        <div class=" +:+ double_quote +:+ "card-info" +:+ double_quote +:+ ">"
  +:+ line_feed
  +:+ "            <h3>" +:+ heading +:+ "</h3>" +:+ line_feed
  +:+ "        </div>" +:+ line_feed
  +:+ "    ".

(** What [makeImageCard] makes: the [div]'s class name (line 205), the
    string assigned to its [innerHTML] (lines 206-211), and the argument its
    click listener passes to [openLightbox] (lines 213-220). *)
Record Card := {
  card_className : string;
  card_innerHTML : string;
  card_click : LightboxData
}.

(** [makeImageCard] (lines 198-223).  [None] is the TypeError thrown on line
    202 when [page.imageinfo[0]] is undefined; nothing has been written by
    then. *)
Definition makeImageCard (page : Page) : option Card :=
  match imageinfo page with
  | [] => None
  | info :: _ =>
      let filename := replace_first "File:" EmptyString (title page) in
      let title := strip_extension filename in
      let author :=
        match ii_artist info with
        | Some a => if String.eqb a EmptyString then "Uploader: " +:+ ii_user info else a
        | None => "Uploader: " +:+ ii_user info
        end in
      Some {| card_className := "image-card";
              card_innerHTML :=
                card_template (ii_thumburl info) (sanitizeHtml title) (sanitizeHtml title);
              card_click := {| ld_url := ii_url info; ld_title := title;
                               ld_author := author; ld_thumb := ii_thumburl info |} |}
  end.

(** *** State *)

(** The module variables of lines 40-43, the three DOM nodes the controller
    writes, and the two things the environment holds for it: how many calls
    of [fetchImages] are suspended at [await axios.get] ([fetchImages] has no
    local variable that lives across the [await], so a count is the whole
    continuation), and the requests issued so far, as the [gsrsearch] and
    [gsroffset] parameters of each. *)
Record State := {
  currentQuery : string;
  gsroffset : Z;
  isLoading : bool;
  hasMore : bool;
  resultsContainer : list Card;
  noResultsShown : bool;
  initialLoaderShown : bool;
  inFlight : nat;
  requests : list (string * Z)
}.

Definition set_currentQuery (v : string) (st : State) : State :=
  {| currentQuery := v; gsroffset := gsroffset st; isLoading := isLoading st;
     hasMore := hasMore st; resultsContainer := resultsContainer st;
     noResultsShown := noResultsShown st; initialLoaderShown := initialLoaderShown st;
     inFlight := inFlight st; requests := requests st |}.

Definition set_gsroffset (v : Z) (st : State) : State :=
  {| currentQuery := currentQuery st; gsroffset := v; isLoading := isLoading st;
     hasMore := hasMore st; resultsContainer := resultsContainer st;
     noResultsShown := noResultsShown st; initialLoaderShown := initialLoaderShown st;
     inFlight := inFlight st; requests := requests st |}.

Definition set_isLoading (v : bool) (st : State) : State :=
  {| currentQuery := currentQuery st; gsroffset := gsroffset st; isLoading := v;
     hasMore := hasMore st; resultsContainer := resultsContainer st;
     noResultsShown := noResultsShown st; initialLoaderShown := initialLoaderShown st;
     inFlight := inFlight st; requests := requests st |}.

Definition set_hasMore (v : bool) (st : State) : State :=
  {| currentQuery := currentQuery st; gsroffset := gsroffset st; isLoading := isLoading st;
     hasMore := v; resultsContainer := resultsContainer st;
     noResultsShown := noResultsShown st; initialLoaderShown := initialLoaderShown st;
     inFlight := inFlight st; requests := requests st |}.

Definition set_resultsContainer (v : list Card) (st : State) : State :=
  {| currentQuery := currentQuery st; gsroffset := gsroffset st; isLoading := isLoading st;
     hasMore := hasMore st; resultsContainer := v;
     noResultsShown := noResultsShown st; initialLoaderShown := initialLoaderShown st;
     inFlight := inFlight st; requests := requests st |}.

Definition set_noResultsShown (v : bool) (st : State) : State :=
  {| currentQuery := currentQuery st; gsroffset := gsroffset st; isLoading := isLoading st;
     hasMore := hasMore st; resultsContainer := resultsContainer st;
     noResultsShown := v; initialLoaderShown := initialLoaderShown st;
     inFlight := inFlight st; requests := requests st |}.

Definition set_initialLoaderShown (v : bool) (st : State) : State :=
  {| currentQuery := currentQuery st; gsroffset := gsroffset st; isLoading := isLoading st;
     hasMore := hasMore st; resultsContainer := resultsContainer st;
     noResultsShown := noResultsShown st; initialLoaderShown := v;
     inFlight := inFlight st; requests := requests st |}.

Definition set_inFlight (v : nat) (st : State) : State :=
  {| currentQuery := currentQuery st; gsroffset := gsroffset st; isLoading := isLoading st;
     hasMore := hasMore st; resultsContainer := resultsContainer st;
     noResultsShown := noResultsShown st; initialLoaderShown := initialLoaderShown st;
     inFlight := v; requests := requests st |}.

Definition set_requests (v : list (string * Z)) (st : State) : State :=
  {| currentQuery := currentQuery st; gsroffset := gsroffset st; isLoading := isLoading st;
     hasMore := hasMore st; resultsContainer := resultsContainer st;
     noResultsShown := noResultsShown st; initialLoaderShown := initialLoaderShown st;
     inFlight := inFlight st; requests := v |}.

(** The state when the script has been loaded (lines 40-43); what the page's
    markup shows in the two status elements is not the script's to say. *)
Definition initial (noResults loader : bool) : State :=
  {| currentQuery := EmptyString; gsroffset := 0; isLoading := false; hasMore := true;
     resultsContainer := []; noResultsShown := noResults; initialLoaderShown := loader;
     inFlight := 0; requests := [] |}.

(** The Query State of the specification. *)
Definition query_state (st : State) : string * Z * bool * bool :=
  (currentQuery st, gsroffset st, isLoading st, hasMore st).

(** *** [fetchImages] (lines 232-272) *)

(** The entry guard of line 233. *)
Definition guard_blocks (st : State) : bool :=
  isLoading st || negb (hasMore st) || String.eqb (currentQuery st) EmptyString.

(** The call itself: the guard, [isLoading = true], and the request, up to
    the [await]. *)
Definition fetchImages (st : State) : State :=
  if guard_blocks st then st
  else set_requests (requests st ++ [(currentQuery st, gsroffset st)])
         (set_inFlight (S (inFlight st)) (set_isLoading true st)).

(** How a block of statements ends; a throw keeps the writes made before
    it. *)
Inductive Completion :=
| Normal (st : State)
| Thrown (st : State).

(** Lines 246-257. *)
Definition render_response (r : ResponseData) (st : State) : Completion :=
  let st := set_initialLoaderShown false st in
  if Z.eqb (gsroffset st) 0 && missing (query r) then
    Normal (set_hasMore false (set_noResultsShown true st))
  else
    match query r ≫= pages with
    | Some ps =>
        match mapM makeImageCard (Object_values ps) with
        | Some items => Normal (set_resultsContainer (resultsContainer st ++ items) st)
        | None => Thrown st
        end
    | None => Normal st
    end.

(** Lines 259-263. *)
Definition advance_cursor (r : ResponseData) (st : State) : State :=
  match continue r with
  | Some offset => set_gsroffset offset st
  | None => set_hasMore false st
  end.

(** The [try] block after the [await] (lines 246-263). *)
Definition try_block (r : ResponseData) (st : State) : Completion :=
  match render_response r st with
  | Normal st' => Normal (advance_cursor r st')
  | Thrown st' => Thrown st'
  end.

(** Lines 265-268. *)
Definition catch_block (st : State) : State :=
  set_initialLoaderShown false (set_hasMore false st).

(** Lines 269-271. *)
Definition finally_block (st : State) : State := set_isLoading false st.

(** The rest of [fetchImages] when the request's promise is fulfilled. *)
Definition fetchImages_fulfilled (r : ResponseData) (st : State) : State :=
  finally_block
    match try_block r st with
    | Normal st' => st'
    | Thrown st' => catch_block st'
    end.

(** The rest of [fetchImages] when the request's promise is rejected. *)
Definition fetchImages_rejected (st : State) : State :=
  finally_block (catch_block st).

(** *** [handleSearch] (lines 274-286) *)

(** Line 276: [queryStr || searchInput.value.trim()].  [typed] is what the
    input element holds, trimmed, when the handler runs. *)
Definition search_query (queryStr : option string) (typed : string) : string :=
  match queryStr with
  | Some q => if String.eqb q EmptyString then typed else q
  | None => typed
  end.

(** Lines 279-284: every write of [handleSearch] before it calls
    [fetchImages]. *)
Definition reset_for (query : string) (st : State) : State :=
  set_initialLoaderShown true
    (set_noResultsShown false
       (set_resultsContainer []
          (set_hasMore true (set_gsroffset 0 (set_currentQuery query st))))).

Definition handleSearch (queryStr : option string) (typed : string) (st : State) : State :=
  let query := search_query queryStr typed in
  if String.eqb query EmptyString || String.eqb query (currentQuery st) then st
  else fetchImages (reset_for query st).

(** *** Events *)

(** The listeners of lines 289, 290 and 307, and the two ways the pending
    request can settle.  A settlement with no call suspended is not an event
    of the program: [step] leaves the state as it is. *)
Inductive Event :=
| Search (queryStr : option string) (typed : string)
| ScrollLoad
| Fulfilled (r : ResponseData)
| Rejected.

Definition step (st : State) (ev : Event) : State :=
  match ev with
  | Search queryStr typed => handleSearch queryStr typed st
  | ScrollLoad => fetchImages st
  | Fulfilled r =>
      match inFlight st with
      | S n => fetchImages_fulfilled r (set_inFlight n st)
      | O => st
      end
  | Rejected =>
      match inFlight st with
      | S n => fetchImages_rejected (set_inFlight n st)
      | O => st
      end
  end.

Definition run (st : State) (evs : list Event) : State := foldl step st evs.

Definition is_search (ev : Event) : bool :=
  match ev with
  | Search _ _ => true
  | _ => false
  end.

(** What [infScroll] is told when it asks for the next page (line 226). *)
Definition path_offered (st : State) : bool := hasMore st && negb (isLoading st).

(** Every call of [fetchImages] that is suspended has [isLoading] set, and
    there is at most one. *)
Definition consistent (st : State) : Prop :=
  inFlight st = if isLoading st then 1 else 0.

(** The entries already stand in the order [Object.values] lists them:
    array indices ascending, then the other keys. *)
Definition is_name (k : PropKey) : bool :=
  match k with
  | Name _ => true
  | ArrayIndex _ => false
  end.

Fixpoint enumeration_ordered {A} (o : JsObject A) : bool :=
  match o with
  | [] => true
  | (ArrayIndex n, _) :: rest =>
      match rest with
      | (ArrayIndex m, _) :: _ => (n <? m)%N
      | _ => true
      end && enumeration_ordered rest
  | (Name _, _) :: rest => forallb (λ kv, is_name kv.1) rest
  end.

(** Event [ev] is no search for another query than [q]: it is no
    submission at all, or it submits nothing or [q] again. *)
Definition resubmits (q : string) (ev : Event) : bool :=
  match ev with
  | Search queryStr typed =>
      String.eqb (search_query queryStr typed) EmptyString
      || String.eqb (search_query queryStr typed) q
  | _ => true
  end.

(** *** Sample values *)

Definition sample_info : ImageInfo :=
  {| ii_url := "https://upload.example/full.jpg";
     ii_thumburl := "https://upload.example/thumb.jpg";
     ii_user := "Ada";
     ii_artist := None |}.

Definition sample_page (t : string) : Page :=
  {| title := t; imageinfo := [sample_info] |}.

Definition sample_card (t : string) : Card :=
  {| card_className := "image-card";
     card_innerHTML := card_template "https://upload.example/thumb.jpg" t t;
     card_click := {| ld_url := "https://upload.example/full.jpg"; ld_title := t;
                      ld_author := "Uploader: Ada";
                      ld_thumb := "https://upload.example/thumb.jpg" |} |}.

(** Two results, the one with the larger page id first in the body. *)
Definition sample_pages : JsObject Page :=
  [(ArrayIndex 20, sample_page "File:Alpha.jpg"); (ArrayIndex 3, sample_page "File:Beta.png")].

Definition sample_response : ResponseData :=
  {| query := Some {| pages := Some sample_pages |}; continue := Some 24%Z |}.

(** The page right after the search for cats has been submitted: its
    request is in flight. *)
Definition loading_cats : State :=
  run (initial false false) [Search (Some "cats") EmptyString].

(** The same search when its only page has come and there is no more. *)
Definition cats_exhausted : State :=
  run loading_cats [Fulfilled {| query := Some {| pages := Some sample_pages |}; continue := None |}].

End Pagination.

(** ** The AI assist controller *)

Module Assist.

(** *** The DOM the controller writes *)

(** The three elements passed as [displayEl]. *)
Inductive Pane :=
| storyDisplay
| analysisDisplay
| chatHistory.

(** A child of a pane: what the parser made of a markup string assigned to
    [innerHTML], the text left by an assignment to [innerText], or a [div]
    made by [document.createElement].  A created [div] that a suspended call
    still holds in [streamContainer] carries that call's number; the user's
    chat line, which nothing holds on to, and every [div] that the parser
    made anew carry none. *)
Inductive Node :=
| Markup (html : string)
| TextNode (text : string)
| Div (held_by : option nat) (className : string) (innerText : string).

(** The double quote, for the markup strings of the source. *)
Definition quote : string := String (ascii_of_nat 34) EmptyString.

(** The value caught by a [catch]; [message] is undefined for a value that
    is not an [Error], such as the event a [FileReader] fails with. *)
Record JsError := { message : option string }.

(** Line 128. *)
Definition error_markup (error : JsError) : string :=
  "<p class=" +:+ quote +:+ "error" +:+ quote +:+ ">AI unavailable: "
    +:+ js_string (message error) +:+ "</p>".

(** [el.innerHTML += html]: the children are written out as markup and parsed
    again together with [html], so the pane gets new nodes throughout and a
    [div] held by a suspended call is no longer among them. *)
Definition reparsed (n : Node) : Node :=
  match n with
  | Div _ className text => Div None className text
  | _ => n
  end.

Definition append_markup (html : string) (children : list Node) : list Node :=
  (reparsed <$> children) ++ [Markup html].

(** [streamContainer.innerText = text] for the [div] created by call [t]. *)
Definition write_div (t : nat) (text : string) (n : Node) : Node :=
  match n with
  | Div (Some t') className _ => if Nat.eqb t t' then Div (Some t) className text else n
  | _ => n
  end.

(** *** The image reference and the suspended calls *)

(** [currentImageData] (line 45). *)
Record ImageData := {
  url : string;
  title : string;
  mimeType : option string;
  base64 : option string
}.

(** [!!s] for an optional string: undefined and the empty string are
    falsy. *)
Definition truthy (o : option string) : bool :=
  match o with
  | Some s => negb (String.eqb s EmptyString)
  | None => false
  end.

(** The arguments of one call of [ai.models.generateContentStream] (lines
    102-112): the image part and the text part. *)
Record StreamRequest := {
  part_mimeType : option string;
  part_data : option string;
  part_text : string
}.

(** A call of [generateAiContent] suspended at an [await], with the local
    variables that are read after it.  [AwaitImage] and [AwaitReader] are the
    two promises inside [imageUrlToBase64] (lines 63 and 67); [AwaitStream]
    is line 109; [Streaming] is the [for await] of line 121. *)
Inductive Task :=
| AwaitImage (prompt : string) (displayEl : Pane) (isChat : bool)
| AwaitReader (prompt : string) (displayEl : Pane) (isChat : bool) (blobType : string)
| AwaitStream (displayEl : Pane) (isChat : bool)
| Streaming (displayEl : Pane) (isChat : bool) (fullText : string).

(** *** State *)

(** The module variables of lines 44-45, the elements written, the suspended
    calls by number, and the requests issued so far (image downloads by URL,
    generation requests by their parts).  [constructorThrows] is a fact of
    the environment that never changes: whether [new GoogleGenAI] with the
    key of [process.env.API_KEY] (line 56) throws, as the library does in a
    browser when the key is missing. *)
Record State := {
  aiClient : bool;
  constructorThrows : bool;
  currentImageData : option ImageData;
  aiLoaderShown : bool;
  lightboxShown : bool;
  story : list Node;
  analysis : list Node;
  chat : list Node;
  tasks : gmap nat Task;
  nextTask : nat;
  imageRequests : list string;
  streamRequests : list StreamRequest
}.

Definition set_aiClient (v : bool) (st : State) : State :=
  {| aiClient := v; constructorThrows := constructorThrows st;
     currentImageData := currentImageData st;
     aiLoaderShown := aiLoaderShown st; lightboxShown := lightboxShown st;
     story := story st; analysis := analysis st; chat := chat st;
     tasks := tasks st; nextTask := nextTask st;
     imageRequests := imageRequests st; streamRequests := streamRequests st |}.

Definition set_currentImageData (v : option ImageData) (st : State) : State :=
  {| aiClient := aiClient st; constructorThrows := constructorThrows st;
     currentImageData := v;
     aiLoaderShown := aiLoaderShown st; lightboxShown := lightboxShown st;
     story := story st; analysis := analysis st; chat := chat st;
     tasks := tasks st; nextTask := nextTask st;
     imageRequests := imageRequests st; streamRequests := streamRequests st |}.

(** [setAiLoading] (lines 82-84). *)
Definition setAiLoading (loading : bool) (st : State) : State :=
  {| aiClient := aiClient st; constructorThrows := constructorThrows st;
     currentImageData := currentImageData st;
     aiLoaderShown := loading; lightboxShown := lightboxShown st;
     story := story st; analysis := analysis st; chat := chat st;
     tasks := tasks st; nextTask := nextTask st;
     imageRequests := imageRequests st; streamRequests := streamRequests st |}.

Definition set_lightboxShown (v : bool) (st : State) : State :=
  {| aiClient := aiClient st; constructorThrows := constructorThrows st;
     currentImageData := currentImageData st;
     aiLoaderShown := aiLoaderShown st; lightboxShown := v;
     story := story st; analysis := analysis st; chat := chat st;
     tasks := tasks st; nextTask := nextTask st;
     imageRequests := imageRequests st; streamRequests := streamRequests st |}.

Definition pane (p : Pane) (st : State) : list Node :=
  match p with
  | storyDisplay => story st
  | analysisDisplay => analysis st
  | chatHistory => chat st
  end.

Definition set_pane (p : Pane) (v : list Node) (st : State) : State :=
  {| aiClient := aiClient st; constructorThrows := constructorThrows st;
     currentImageData := currentImageData st;
     aiLoaderShown := aiLoaderShown st; lightboxShown := lightboxShown st;
     story := match p with storyDisplay => v | _ => story st end;
     analysis := match p with analysisDisplay => v | _ => analysis st end;
     chat := match p with chatHistory => v | _ => chat st end;
     tasks := tasks st; nextTask := nextTask st;
     imageRequests := imageRequests st; streamRequests := streamRequests st |}.

Definition set_tasks (v : gmap nat Task) (st : State) : State :=
  {| aiClient := aiClient st; constructorThrows := constructorThrows st;
     currentImageData := currentImageData st;
     aiLoaderShown := aiLoaderShown st; lightboxShown := lightboxShown st;
     story := story st; analysis := analysis st; chat := chat st;
     tasks := v; nextTask := nextTask st;
     imageRequests := imageRequests st; streamRequests := streamRequests st |}.

Definition set_nextTask (v : nat) (st : State) : State :=
  {| aiClient := aiClient st; constructorThrows := constructorThrows st;
     currentImageData := currentImageData st;
     aiLoaderShown := aiLoaderShown st; lightboxShown := lightboxShown st;
     story := story st; analysis := analysis st; chat := chat st;
     tasks := tasks st; nextTask := v;
     imageRequests := imageRequests st; streamRequests := streamRequests st |}.

Definition set_imageRequests (v : list string) (st : State) : State :=
  {| aiClient := aiClient st; constructorThrows := constructorThrows st;
     currentImageData := currentImageData st;
     aiLoaderShown := aiLoaderShown st; lightboxShown := lightboxShown st;
     story := story st; analysis := analysis st; chat := chat st;
     tasks := tasks st; nextTask := nextTask st;
     imageRequests := v; streamRequests := streamRequests st |}.

Definition set_streamRequests (v : list StreamRequest) (st : State) : State :=
  {| aiClient := aiClient st; constructorThrows := constructorThrows st;
     currentImageData := currentImageData st;
     aiLoaderShown := aiLoaderShown st; lightboxShown := lightboxShown st;
     story := story st; analysis := analysis st; chat := chat st;
     tasks := tasks st; nextTask := nextTask st;
     imageRequests := imageRequests st; streamRequests := v |}.

(** The state when the script has been loaded; the panes, the loader and the
    viewer are as the page's markup has them, and [throws] is the
    environment's [constructorThrows]. *)
Definition initial (s a c : list Node) (loader viewer throws : bool) : State :=
  {| aiClient := false; constructorThrows := throws;
     currentImageData := None;
     aiLoaderShown := loader; lightboxShown := viewer;
     story := s; analysis := a; chat := c;
     tasks := ∅; nextTask := 0;
     imageRequests := []; streamRequests := [] |}.

(** [getAi] (lines 54-59): the client is made on first use.  [None] is the
    exception of the constructor, which leaves [aiClient] null. *)
Definition getAi (st : State) : option State :=
  if aiClient st then Some st
  else if constructorThrows st then None
  else Some (set_aiClient true st).

(** [getAi] returns: the client is there or can be made. *)
Definition client_ready (st : State) : bool :=
  aiClient st || negb (constructorThrows st).

(** *** The viewer (lines 172-195) *)

Definition openLightbox (data : LightboxData) (st : State) : State :=
  let st := set_currentImageData
              (Some {| url := ld_url data; title := ld_title data;
                       mimeType := None; base64 := None |}) st in
  let st := set_pane storyDisplay
              [Markup ("<p class=" +:+ quote +:+ "placeholder" +:+ quote
                         +:+ ">Select a style to generate a story...</p>")] st in
  let st := set_pane analysisDisplay
              [Markup ("<p class=" +:+ quote +:+ "placeholder" +:+ quote
                         +:+ ">Click to identify objects and context...</p>")] st in
  let st := set_pane chatHistory
              [Markup ("<p class=" +:+ quote +:+ "system-msg" +:+ quote
                         +:+ ">Ask Gemini anything about this image.</p>")] st in
  set_lightboxShown true st.

Definition closeLightbox (st : State) : State :=
  set_currentImageData None (set_lightboxShown false st).

(** *** [generateAiContent] (lines 88-132) *)

(** The [catch] and [finally] blocks (lines 126-131), which end call [t]. *)
Definition fail (t : nat) (displayEl : Pane) (error : JsError) (st : State) : State :=
  let st := set_tasks (delete t (tasks st)) st in
  let st := set_pane displayEl (append_markup (error_markup error) (pane displayEl st)) st in
  setAiLoading false st.

(** Lines 102-112: the request is built from the image reference as it is
    now, and the call suspends on it. *)
Definition request_stream (t : nat) (prompt : string) (displayEl : Pane) (isChat : bool)
    (img : ImageData) (st : State) : State :=
  let st := set_streamRequests
              (streamRequests st ++
                 [{| part_mimeType := mimeType img; part_data := base64 img;
                     part_text := prompt |}]) st in
  set_tasks (<[t := AwaitStream displayEl isChat]> (tasks st)) st.

(** The call itself, up to its first [await]: line 97 when the image has no
    encoding yet, line 109 when it has.  Line 93 stands before the [try] of
    line 94: when [getAi] throws, the call ends there, with the loader shown
    and the pane cleared, and neither [catch] nor [finally] runs. *)
Definition generateAiContent (prompt : string) (displayEl : Pane) (isChat : bool)
    (st : State) : State :=
  match currentImageData st with
  | None => st
  | Some img =>
      let st := setAiLoading true st in
      let st := if isChat then st else set_pane displayEl [] st in
      match getAi st with
      | None => st
      | Some st =>
          let t := nextTask st in
          let st := set_nextTask (S t) st in
          if truthy (base64 img) then request_stream t prompt displayEl isChat img st
          else
            let st := set_imageRequests (imageRequests st ++ [url img]) st in
            set_tasks (<[t := AwaitImage prompt displayEl isChat]> (tasks st)) st
      end
  end.

(** What a write to a property of [null] throws (lines 98-99); the wording is
    the engine's. *)
Definition null_write_error : JsError :=
  {| message := Some "Cannot set properties of null (setting 'mimeType')" |}.

(** Lines 98-99. *)
Definition store_encoding (blobType : string) (data : option string) (img : ImageData)
    : ImageData :=
  {| url := url img; title := title img; mimeType := Some blobType; base64 := data |}.

(** After [imageUrlToBase64] has resolved (lines 97-112): the encoding is
    written to whatever [currentImageData] is now. *)
Definition encoded (t : nat) (prompt : string) (displayEl : Pane) (isChat : bool)
    (blobType : string) (data : option string) (st : State) : State :=
  match currentImageData st with
  | None => fail t displayEl null_write_error st
  | Some img =>
      let img := store_encoding blobType data img in
      request_stream t prompt displayEl isChat img (set_currentImageData (Some img) st)
  end.

(** [s.split(',')[1]] (line 71). *)
Fixpoint up_to_comma (s : string) : string :=
  match s with
  | EmptyString => EmptyString
  | String c rest => if Ascii.eqb c "," then EmptyString else String c (up_to_comma rest)
  end.

Fixpoint after_comma (s : string) : option string :=
  match s with
  | EmptyString => None
  | String c rest => if Ascii.eqb c "," then Some rest else after_comma rest
  end.

Definition split_comma_1 (s : string) : option string := up_to_comma <$> after_comma s.

(** Lines 114-119, when the stream has been opened. *)
Definition stream_opened (t : nat) (displayEl : Pane) (isChat : bool) (st : State) : State :=
  let st :=
    if isChat
    then set_pane displayEl (pane displayEl st ++ [Div (Some t) "chat-msg ai-msg" EmptyString]) st
    else st in
  set_tasks (<[t := Streaming displayEl isChat EmptyString]> (tasks st)) st.

(** Line 123: [streamContainer] is the pane itself, or the [div] of call
    [t] if the pane still has it. *)
Definition show_text (t : nat) (displayEl : Pane) (isChat : bool) (text : string)
    (st : State) : State :=
  if isChat then set_pane displayEl (write_div t text <$> pane displayEl st) st
  else set_pane displayEl [TextNode text] st.

(** One turn of the loop (lines 121-125) for a chunk whose [text] is
    [text]. *)
Definition chunk_arrived (t : nat) (displayEl : Pane) (isChat : bool) (fullText : string)
    (text : option string) (st : State) : State :=
  let fullText := fullText +:+ js_string text in
  let st := show_text t displayEl isChat fullText st in
  set_tasks (<[t := Streaming displayEl isChat fullText]> (tasks st)) st.

(** The stream is exhausted: the [finally] block alone. *)
Definition stream_ended (t : nat) (st : State) : State :=
  setAiLoading false (set_tasks (delete t (tasks st)) st).

(** *** The three actions (lines 134-158) *)

Definition handleGenreClick (genre : option string) (st : State) : State :=
  let prompt :=
    "Write a short, immersive " +:+ js_string genre
      +:+ " story (about 150 words) inspired by this image titled " +:+ quote
      +:+ js_string (title <$> currentImageData st) +:+ quote
      +:+ ". Use vivid sensory details." in
  generateAiContent prompt storyDisplay false st.

Definition handleAnalyzeClick (st : State) : State :=
  let prompt :=
    "Analyze this image. Identify the key subjects, the artistic or photographic style, the likely time period or location if applicable, and any interesting hidden details you see. Be concise and use bullet points." in
  generateAiContent prompt analysisDisplay false st.

(** [typed] is [chatInput.value.trim()] when the handler runs. *)
Definition handleChatSend (typed : string) (st : State) : State :=
  if String.eqb typed EmptyString then st
  else
    let st := set_pane chatHistory
                (pane chatHistory st ++ [Div None "chat-msg user-msg" ("You: " +:+ typed)]) st in
    let prompt := "Answer this question about the provided image: " +:+ typed in
    generateAiContent prompt chatHistory true st.

(** *** Events *)

(** User actions (lines 213, 291-303) and the settling of the promise that
    call [t] is suspended on.  A settlement that does not fit what call [t]
    is waiting for is not an event of the program: [step] leaves the state
    as it is. *)
Inductive Event :=
| CardClick (data : LightboxData)
| CloseClick
| EscapeKey
| GenreClick (genre : option string)
| AnalyzeClick
| ChatSend (typed : string)
| ImageFetched (t : nat) (blobType : string)
| ImageFetchFailed (t : nat) (e : JsError)
| ReaderLoaded (t : nat) (result : string)
| ReaderFailed (t : nat) (e : JsError)
| StreamOpened (t : nat)
| StreamRefused (t : nat) (e : JsError)
| ChunkArrived (t : nat) (text : option string)
| StreamEnded (t : nat)
| StreamBroke (t : nat) (e : JsError).

Definition step (st : State) (ev : Event) : State :=
  match ev with
  | CardClick data => openLightbox data st
  | CloseClick => closeLightbox st
  | EscapeKey => if lightboxShown st then closeLightbox st else st
  | GenreClick genre => handleGenreClick genre st
  | AnalyzeClick => handleAnalyzeClick st
  | ChatSend typed => handleChatSend typed st
  | ImageFetched t blobType =>
      match tasks st !! t with
      | Some (AwaitImage prompt displayEl isChat) =>
          set_tasks (<[t := AwaitReader prompt displayEl isChat blobType]> (tasks st)) st
      | _ => st
      end
  | ImageFetchFailed t e =>
      match tasks st !! t with
      | Some (AwaitImage _ displayEl _) => fail t displayEl e st
      | _ => st
      end
  | ReaderLoaded t result =>
      match tasks st !! t with
      | Some (AwaitReader prompt displayEl isChat blobType) =>
          encoded t prompt displayEl isChat blobType (split_comma_1 result) st
      | _ => st
      end
  | ReaderFailed t e =>
      match tasks st !! t with
      | Some (AwaitReader _ displayEl _ _) => fail t displayEl e st
      | _ => st
      end
  | StreamOpened t =>
      match tasks st !! t with
      | Some (AwaitStream displayEl isChat) => stream_opened t displayEl isChat st
      | _ => st
      end
  | StreamRefused t e =>
      match tasks st !! t with
      | Some (AwaitStream displayEl _) => fail t displayEl e st
      | _ => st
      end
  | ChunkArrived t text =>
      match tasks st !! t with
      | Some (Streaming displayEl isChat fullText) =>
          chunk_arrived t displayEl isChat fullText text st
      | _ => st
      end
  | StreamEnded t =>
      match tasks st !! t with
      | Some (Streaming _ _ _) => stream_ended t st
      | _ => st
      end
  | StreamBroke t e =>
      match tasks st !! t with
      | Some (Streaming displayEl _ _) => fail t displayEl e st
      | _ => st
      end
  end.

Definition run (st : State) (evs : list Event) : State := foldl step st evs.

(** The events that select an image or drop the selection. *)
Definition changes_selection (ev : Event) : bool :=
  match ev with
  | CardClick _ | CloseClick | EscapeKey => true
  | _ => false
  end.

(** The image has an encoding that line 96 accepts. *)
Definition cached (st : State) : bool :=
  match currentImageData st with
  | Some img => truthy (base64 img)
  | None => false
  end.




(** The chunks joined in the order given, with nothing between them. *)
Definition concatenation (chunks : list string) : string :=
  foldr String.append EmptyString chunks.

(** The arrival at call [t] of chunks with the given texts, one after the
    other. *)
Definition chunk_events (t : nat) (chunks : list string) : list Event :=
  (λ c, ChunkArrived t (Some c)) <$> chunks.


(** The two ways the encoding of the image fails for call [t] with [e]:
    the download is rejected (line 63), or the download comes and the reader
    fails on the blob (line 69). *)
Inductive encoding_fails (t : nat) (e : JsError) : list Event → Prop :=
| fails_at_download : encoding_fails t e [ImageFetchFailed t e]
| fails_at_reader blobType :
    encoding_fails t e [ImageFetched t blobType; ReaderFailed t e].

(** The pane a suspended call writes to. *)
Definition task_pane (k : Task) : Pane :=
  match k with
  | AwaitImage _ displayEl _ | AwaitReader _ displayEl _ _
  | AwaitStream displayEl _ | Streaming displayEl _ _ => displayEl
  end.

(** The panes an event may write to: all three when the viewer is opened,
    the action's own pane, or the pane of the call the settlement belongs
    to. *)
Definition written_panes (st : State) (ev : Event) : list Pane :=
  match ev with
  | CardClick _ => [storyDisplay; analysisDisplay; chatHistory]
  | CloseClick | EscapeKey => []
  | GenreClick _ => [storyDisplay]
  | AnalyzeClick => [analysisDisplay]
  | ChatSend _ => [chatHistory]
  | ImageFetched t _ | ImageFetchFailed t _ | ReaderLoaded t _ | ReaderFailed t _
  | StreamOpened t | StreamRefused t _ | ChunkArrived t _ | StreamEnded t
  | StreamBroke t _ =>
      match tasks st !! t with
      | Some k => [task_pane k]
      | None => []
      end
  end.


(** The node is the [div] that call [t] holds in [streamContainer]. *)
Definition held_by (t : nat) (n : Node) : bool :=
  match n with
  | Div (Some t') _ _ => Nat.eqb t t'
  | _ => false
  end.

(** The text has no comma. *)
Fixpoint comma_free (s : string) : bool :=
  match s with
  | EmptyString => true
  | String c rest => negb (Ascii.eqb c ",") && comma_free rest
  end.

(** The data URL a [FileReader] produces for a blob of type [blobType] whose
    content encodes to [payload]. *)
Definition data_url (blobType payload : string) : string :=
  "data:" +:+ blobType +:+ ";base64," +:+ payload.

(** What a piece that is no selection leaves alone: the viewer flag, and
    whether an image is selected. *)
Definition same_selection (st st' : State) : Prop :=
  lightboxShown st' = lightboxShown st ∧
  missing (currentImageData st') = missing (currentImageData st).

(** No call is suspended and no request has been issued. *)
Definition idle (st : State) : Prop :=
  tasks st = ∅ ∧ imageRequests st = [] ∧ streamRequests st = [].

(** *** Sample values *)

Definition sample_image : LightboxData :=
  {| ld_url := "https://upload.example/sunset.jpg";
     ld_title := "Sunset";
     ld_author := "Uploader: Ada";
     ld_thumb := "https://upload.example/sunset-thumb.jpg" |}.

(** The viewer has just been opened on the sample image. *)
Definition viewing : State :=
  run (initial [] [] [] false false false) [CardClick sample_image].

(** A noir story has been asked for, the image has been downloaded and
    read, and the generation request is pending. *)
Definition story_requested : State :=
  run viewing [GenreClick (Some "noir"); ImageFetched 0 "image/jpeg";
               ReaderLoaded 0 "data:image/jpeg;base64,QUJD"].

End Assist.

(** * Properties of the pagination controller *)

Module PaginationFacts.
Import Pagination.

(** ** The guard and the loading flag *)

Lemma fetchImages_blocked st : guard_blocks st = true → fetchImages st = st.
Proof. intros H. unfold fetchImages. by rewrite H. Qed.

Lemma fetchImages_passes st :
  guard_blocks st = false →
  fetchImages st =
    set_requests (requests st ++ [(currentQuery st, gsroffset st)])
      (set_inFlight (S (inFlight st)) (set_isLoading true st)).
Proof. intros H. unfold fetchImages. by rewrite H. Qed.

Lemma guard_passes_fields st :
  guard_blocks st = false →
  isLoading st = false ∧ hasMore st = true ∧ currentQuery st ≠ EmptyString.
Proof.
  unfold guard_blocks. intros H.
  apply orb_false_iff in H as [H Hq]. apply orb_false_iff in H as [Hl Hm].
  apply negb_false_iff in Hm. apply String.eqb_neq in Hq. done.
Qed.

Lemma guard_blocks_cases st :
  isLoading st = true ∨ hasMore st = false ∨ currentQuery st = EmptyString →
  guard_blocks st = true.
Proof.
  unfold guard_blocks. intros [H | [H | H]]; rewrite H; simpl.
  - done.
  - by rewrite orb_true_r.
  - by rewrite orb_true_r.
Qed.

Lemma fetchImages_consistent st : consistent st → consistent (fetchImages st).
Proof.
  intros Hc. destruct (guard_blocks st) eqn:Hg.
  - by rewrite fetchImages_blocked.
  - rewrite (fetchImages_passes _ Hg).
    destruct (guard_passes_fields _ Hg) as (Hl & _ & _).
    unfold consistent in *. rewrite Hl in Hc. simpl. by rewrite Hc.
Qed.

Lemma render_response_flags r st :
  match render_response r st with
  | Normal st' | Thrown st' => isLoading st' = isLoading st ∧ inFlight st' = inFlight st
                               ∧ requests st' = requests st
  end.
Proof.
  unfold render_response. simpl.
  destruct (Z.eqb (gsroffset st) 0 && missing (query r)); [done |].
  destruct (query r ≫= pages) as [ps |]; [| done].
  by destruct (mapM makeImageCard (Object_values ps)).
Qed.

Lemma fulfilled_fields r st :
  let st' := fetchImages_fulfilled r st in
  isLoading st' = false ∧ inFlight st' = inFlight st ∧ requests st' = requests st.
Proof.
  unfold fetchImages_fulfilled, try_block.
  pose proof (render_response_flags r st) as H.
  destruct (render_response r st) as [st1 | st1]; destruct H as (_ & Hi & Hr).
  - unfold advance_cursor. by destruct (continue r).
  - done.
Qed.

Lemma rejected_fields st :
  let st' := fetchImages_rejected st in
  isLoading st' = false ∧ hasMore st' = false ∧ inFlight st' = inFlight st
  ∧ requests st' = requests st ∧ resultsContainer st' = resultsContainer st
  ∧ currentQuery st' = currentQuery st ∧ gsroffset st' = gsroffset st.
Proof. done. Qed.

Lemma step_consistent st ev : consistent st → consistent (step st ev).
Proof.
  intros Hc. destruct ev as [queryStr typed | | r |]; simpl.
  - unfold handleSearch.
    destruct (String.eqb _ _ || String.eqb _ _); [done |].
    by apply fetchImages_consistent.
  - by apply fetchImages_consistent.
  - destruct (inFlight st) as [| n] eqn:Hn; [done |].
    unfold consistent in *. rewrite Hn in Hc.
    destruct (isLoading st); [| done]. injection Hc as ->.
    destruct (fulfilled_fields r (set_inFlight 0 st)) as (-> & -> & _). done.
  - destruct (inFlight st) as [| n] eqn:Hn; [done |].
    unfold consistent in *. rewrite Hn in Hc.
    destruct (isLoading st); [| done]. by injection Hc as ->.
Qed.

Lemma run_consistent st evs : consistent st → consistent (run st evs).
Proof.
  revert st. induction evs as [| ev evs IH]; intros st Hc; [done |].
  simpl. by apply IH, step_consistent.
Qed.

Lemma initial_consistent a b : consistent (initial a b).
Proof. done. Qed.

(** ** Once [hasMore] is false *)

Lemma step_exhausted st ev :
  hasMore st = false → is_search ev = false →
  hasMore (step st ev) = false ∧ requests (step st ev) = requests st.
Proof.
  intros Hm Hs. destruct ev as [queryStr typed | | r |]; simpl in *.
  - done.
  - rewrite fetchImages_blocked; [done |]. apply guard_blocks_cases. auto.
  - destruct (inFlight st) as [| n]; [done |].
    split; [| by destruct (fulfilled_fields r (set_inFlight n st)) as (_ & _ & ->)].
    unfold fetchImages_fulfilled, try_block, render_response. simpl.
    destruct (Z.eqb (gsroffset st) 0 && missing (query r)).
    { unfold advance_cursor. by destruct (continue r). }
    destruct (query r ≫= pages) as [ps |].
    + destruct (mapM makeImageCard (Object_values ps)); [| done].
      unfold advance_cursor. by destruct (continue r).
    + unfold advance_cursor. by destruct (continue r).
  - by destruct (inFlight st).
Qed.

Lemma run_exhausted st evs :
  hasMore st = false → Forall (λ ev, is_search ev = false) evs →
  hasMore (run st evs) = false ∧ requests (run st evs) = requests st.
Proof.
  revert st. induction evs as [| ev evs IH]; intros st Hm Hall; [done |].
  inversion Hall as [| ? ? Hev Hrest]; subst. simpl.
  destruct (step_exhausted st ev Hm Hev) as [Hm' Hr'].
  destruct (IH _ Hm' Hrest) as [? ?]. split; [done | congruence].
Qed.

(** ** [handleSearch] *)

Lemma handleSearch_ignored queryStr typed st :
  search_query queryStr typed = EmptyString ∨ search_query queryStr typed = currentQuery st →
  handleSearch queryStr typed st = st.
Proof.
  intros H. unfold handleSearch.
  destruct H as [H | H]; rewrite H; simpl.
  - done.
  - by rewrite String.eqb_refl, orb_true_r.
Qed.

Lemma handleSearch_new queryStr typed st :
  search_query queryStr typed ≠ EmptyString →
  search_query queryStr typed ≠ currentQuery st →
  handleSearch queryStr typed st = fetchImages (reset_for (search_query queryStr typed) st).
Proof.
  intros H1 H2. unfold handleSearch.
  apply String.eqb_neq in H1, H2. by rewrite H1, H2.
Qed.

Lemma fetchImages_currentQuery st : currentQuery (fetchImages st) = currentQuery st.
Proof. unfold fetchImages. by destruct (guard_blocks st). Qed.

(** C1, as the code has it: a search for a new, non-empty query sets
    [currentQuery] to the query, the cursor to 0 and [hasMore] to true and
    empties the results before [fetchImages] is called, and leaves
    [isLoading] as it was.  When no page fetch is in flight ([isLoading] is
    false) the Query State at that point is [(query, 0, false, true)] and the
    first page is requested for the query at offset 0. *)
Theorem C1_search_resets_query_state (queryStr : option string) (typed : string) (st : State) :
  let query := search_query queryStr typed in
  query ≠ EmptyString → query ≠ currentQuery st →
  let st1 := reset_for query st in
  handleSearch queryStr typed st = fetchImages st1 ∧
  currentQuery st1 = query ∧ gsroffset st1 = 0%Z ∧ hasMore st1 = true ∧
  isLoading st1 = isLoading st ∧ resultsContainer st1 = [] ∧
  (isLoading st = false →
     query_state st1 = (query, 0%Z, false, true) ∧
     requests (fetchImages st1) = requests st ++ [(query, 0%Z)] ∧
     isLoading (fetchImages st1) = true).
Proof.
  intros query Hne Hnew st1. split; [by apply handleSearch_new |].
  do 5 (split; [done |]). intros Hidle.
  assert (guard_blocks st1 = false) as Hg.
  { unfold guard_blocks. simpl. rewrite Hidle. simpl. by apply String.eqb_neq. }
  split; [| split].
  - unfold query_state. simpl. by rewrite Hidle.
  - by rewrite (fetchImages_passes _ Hg).
  - by rewrite (fetchImages_passes _ Hg).
Qed.

Lemma C1_search_resets_query_state_witness :
  query_state (reset_for "cats" (initial false false)) = ("cats", 0%Z, false, true) ∧
  requests (handleSearch (Some "cats") EmptyString (initial false false)) = [("cats", 0%Z)].
Proof.
  destruct (C1_search_resets_query_state (Some "cats") EmptyString (initial false false))
    as (Hs & _ & _ & _ & _ & _ & Hidle); [done | done |].
  destruct (Hidle eq_refl) as (Hq & Hr & _).
  split; [exact Hq |]. rewrite Hs. exact Hr.
Defined.

(** C1 as stated fails while a page fetch is in flight: the search for dogs
    is new and not empty, yet before [fetchImages] is called [isLoading] is
    still true, the Query State is [(dogs, 0, true, true)], and no fetch is
    started for it. *)
Lemma C1_isLoading_not_reset :
  search_query (Some "dogs") EmptyString = "dogs" ∧
  currentQuery loading_cats = "cats" ∧
  query_state (reset_for "dogs" loading_cats) = ("dogs", 0%Z, true, true) ∧
  requests (handleSearch (Some "dogs") EmptyString loading_cats) = [("cats", 0%Z)].
Proof. done. Qed.

(** C3: [fetchImages] changes nothing, and so issues no request, when
    [isLoading] is true, [hasMore] is false or no query is set; and from a
    state where [hasMore] is false, no run of events without a search issues
    a request or sets [hasMore] again. *)
Theorem C3_guarded_fetch_is_noop (st : State) :
  isLoading st = true ∨ hasMore st = false ∨ currentQuery st = EmptyString →
  fetchImages st = st ∧ step st ScrollLoad = st ∧
  (hasMore st = false →
   ∀ evs, Forall (λ ev, is_search ev = false) evs →
          requests (run st evs) = requests st ∧ hasMore (run st evs) = false).
Proof.
  intros H. pose proof (fetchImages_blocked st (guard_blocks_cases st H)) as Hb.
  repeat split; try done.
  - by apply run_exhausted.
  - by apply run_exhausted.
Qed.

Lemma C3_guarded_fetch_is_noop_witness :
  fetchImages cats_exhausted = cats_exhausted ∧
  requests (run cats_exhausted [ScrollLoad; Rejected; ScrollLoad]) = [("cats", 0%Z)].
Proof.
  destruct (C3_guarded_fetch_is_noop cats_exhausted) as (Hf & _ & Hruns).
  { right. left. reflexivity. }
  split; [exact Hf |].
  destruct (Hruns eq_refl [ScrollLoad; Rejected; ScrollLoad]) as [Hr _].
  { repeat constructor. }
  exact Hr.
Defined.

(** C4: when the pending request fails, the rest of [fetchImages] sets
    [hasMore] to false and issues no request, and no run of events without a
    search issues one afterwards.  A response that cannot be rendered (a
    result without image information) ends the same way. *)
Theorem C4_failure_ends_pagination (st : State) (n : nat) :
  inFlight st = S n →
  let st' := step st Rejected in
  hasMore st' = false ∧ isLoading st' = false ∧ requests st' = requests st ∧
  currentQuery st' = currentQuery st ∧
  (∀ evs, Forall (λ ev, is_search ev = false) evs →
          requests (run st' evs) = requests st ∧ hasMore (run st' evs) = false) ∧
  (∀ r q ps, query r = Some q → pages q = Some ps →
             mapM makeImageCard (Object_values ps) = None →
             hasMore (step st (Fulfilled r)) = false ∧
             requests (step st (Fulfilled r)) = requests st ∧
             resultsContainer (step st (Fulfilled r)) = resultsContainer st).
Proof.
  intros Hn st'. subst st'. cbn [step]. rewrite Hn.
  do 4 (split; [done |]). split.
  - intros evs Hall.
    destruct (run_exhausted (fetchImages_rejected (set_inFlight n st)) evs) as [Hm Hr]; done.
  - intros r q ps Hq Hp Hthrow.
    assert (render_response r (set_inFlight n st)
            = Thrown (set_initialLoaderShown false (set_inFlight n st))) as Hrender.
    { unfold render_response. simpl. rewrite Hq, andb_false_r. simpl. by rewrite Hp, Hthrow. }
    unfold fetchImages_fulfilled, try_block. rewrite Hrender. done.
Qed.

Lemma C4_failure_ends_pagination_witness :
  hasMore (step loading_cats Rejected) = false ∧
  requests (run (step loading_cats Rejected) [ScrollLoad; ScrollLoad]) = [("cats", 0%Z)].
Proof.
  destruct (C4_failure_ends_pagination loading_cats 0 eq_refl) as (Hm & _ & _ & _ & Hruns & _).
  split; [exact Hm |].
  destruct (Hruns [ScrollLoad; ScrollLoad]) as [Hr _]; [repeat constructor | exact Hr].
Defined.

(** C5: in every state the page can reach, a call of [fetchImages] that
    passes the guard sets [isLoading] and is the one call suspended; every
    way its request settles (a page of results, no results, a failure)
    clears [isLoading] and leaves no call suspended; and [isLoading] is true
    exactly when a call is suspended, of which there is never more than
    one. *)
Theorem C5_isLoading_brackets_fetch (a b : bool) (evs : list Event) :
  let st := run (initial a b) evs in
  (isLoading st = true ↔ inFlight st = 1) ∧ inFlight st ≤ 1 ∧
  (guard_blocks st = false →
     isLoading (fetchImages st) = true ∧ inFlight (fetchImages st) = 1) ∧
  (∀ r, isLoading (step st (Fulfilled r)) = false ∧ inFlight (step st (Fulfilled r)) = 0) ∧
  isLoading (step st Rejected) = false ∧ inFlight (step st Rejected) = 0.
Proof.
  intros st.
  assert (consistent st) as Hc by apply run_consistent, initial_consistent.
  assert (∀ ev, consistent (step st ev)) as Hstep by (intros; by apply step_consistent).
  split; [| split; [| split; [| split]]].
  - unfold consistent in Hc. rewrite Hc. destruct (isLoading st); split; done.
  - unfold consistent in Hc. rewrite Hc. destruct (isLoading st); lia.
  - intros Hg. rewrite (fetchImages_passes _ Hg). simpl.
    destruct (guard_passes_fields _ Hg) as (Hl & _ & _).
    unfold consistent in Hc. rewrite Hl in Hc. by rewrite Hc.
  - intros r. specialize (Hstep (Fulfilled r)). unfold consistent in Hstep.
    assert (isLoading (step st (Fulfilled r)) = false) as Hl.
    { simpl. destruct (inFlight st) as [| n] eqn:Hn.
      - unfold consistent in Hc. rewrite Hn in Hc. by destruct (isLoading st).
      - by destruct (fulfilled_fields r (set_inFlight n st)) as (-> & _). }
    by rewrite Hl in Hstep.
  - specialize (Hstep Rejected). unfold consistent in Hstep.
    assert (isLoading (step st Rejected) = false) as Hl.
    { simpl. destruct (inFlight st) as [| n] eqn:Hn.
      - unfold consistent in Hc. rewrite Hn in Hc. by destruct (isLoading st).
      - done. }
    by rewrite Hl in Hstep.
Qed.

Lemma C5_isLoading_brackets_fetch_witness :
  isLoading (fetchImages (run (initial false false) [Search (Some "cats") EmptyString; Rejected;
                                                      Search (Some "dogs") EmptyString;
                                                      Fulfilled sample_response])) = true.
Proof.
  destruct (C5_isLoading_brackets_fetch false false
              [Search (Some "cats") EmptyString; Rejected;
               Search (Some "dogs") EmptyString; Fulfilled sample_response])
    as (_ & _ & Hcall & _).
  destruct (Hcall eq_refl) as [Hl _]. exact Hl.
Defined.

(** C9, as the code has it: of two submissions in a row of the same query
    the second changes nothing, whatever the first did; an empty submission
    changes nothing; and the first issues one request, for the query at
    offset 0, when the query is new and not empty and no page fetch is in
    flight, and none when it is the current query or a fetch is in flight. *)
Theorem C9_second_submission_ignored (queryStr : option string) (typed : string) (st : State) :
  let query := search_query queryStr typed in
  let st1 := handleSearch queryStr typed st in
  handleSearch queryStr typed st1 = st1 ∧
  (query = EmptyString → st1 = st) ∧
  (query ≠ EmptyString → query ≠ currentQuery st → isLoading st = false →
     requests (run st [Search queryStr typed; Search queryStr typed])
     = requests st ++ [(query, 0%Z)]) ∧
  (query = currentQuery st ∨ isLoading st = true →
     requests (run st [Search queryStr typed; Search queryStr typed]) = requests st).
Proof.
  intros query st1.
  assert (handleSearch queryStr typed st1 = st1) as Hsecond.
  { destruct (decide (query = EmptyString)) as [He | He].
    { apply handleSearch_ignored. by left. }
    destruct (decide (query = currentQuery st)) as [Hc | Hc].
    { subst st1. rewrite (handleSearch_ignored queryStr typed st) by by right.
      apply handleSearch_ignored. by right. }
    apply handleSearch_ignored. right. subst st1.
    rewrite handleSearch_new by done. by rewrite fetchImages_currentQuery. }
  split; [exact Hsecond |]. split; [| split].
  - intros He. apply handleSearch_ignored. by left.
  - intros He Hc Hl. simpl. fold st1. rewrite Hsecond. subst st1.
    rewrite handleSearch_new by done. rewrite fetchImages_passes; [done |].
    unfold guard_blocks. simpl. rewrite Hl. simpl. by apply String.eqb_neq.
  - intros H. simpl. fold st1. rewrite Hsecond. subst st1.
    destruct H as [Hc | Hl].
    + rewrite handleSearch_ignored; [done | by right].
    + unfold handleSearch. fold query.
      destruct (String.eqb query EmptyString || String.eqb query (currentQuery st)); [done |].
      rewrite fetchImages_blocked; [done |]. unfold guard_blocks. simpl. by rewrite Hl.
Qed.

Lemma C9_second_submission_ignored_witness :
  requests (run (initial false false)
              [Search (Some "cats") EmptyString; Search (Some "cats") EmptyString])
  = [("cats", 0%Z)].
Proof.
  destruct (C9_second_submission_ignored (Some "cats") EmptyString (initial false false))
    as (_ & _ & Hone & _).
  exact (Hone ltac:(done) ltac:(done) eq_refl).
Defined.

(** C9 as stated fails while a page fetch is in flight: two submissions in a
    row of the new query dogs issue no request at all, although the query
    has become the current one. *)
Lemma C9_two_submissions_no_fetch :
  requests loading_cats = [("cats", 0%Z)] ∧
  requests (run loading_cats [Search (Some "dogs") EmptyString; Search (Some "dogs") EmptyString])
  = [("cats", 0%Z)] ∧
  currentQuery (run loading_cats [Search (Some "dogs") EmptyString;
                                  Search (Some "dogs") EmptyString]) = "dogs".
Proof. done. Qed.

(** ** The order of the cards *)

Lemma insert_index_perm {A} n (v : A) l : insert_index n v l ≡ₚ (n, v) :: l.
Proof.
  induction l as [| [m w] l IH]; simpl; [done |].
  destruct (n <? m)%N; [done |]. rewrite IH. apply Permutation_swap.
Qed.

Lemma sort_index_perm {A} (l : list (N * A)) : sort_index l ≡ₚ l.
Proof.
  induction l as [| [n v] l IH]; simpl; [done |].
  rewrite insert_index_perm. by rewrite IH.
Qed.

Lemma entries_perm {A} (o : JsObject A) :
  (index_entries o).*2 ++ name_entries o ≡ₚ received_values o.
Proof.
  unfold received_values.
  induction o as [| [[n | s] v] o IH]; simpl; [done | |].
  - unfold index_entries, name_entries in *. simpl. by rewrite IH.
  - unfold index_entries, name_entries in *. simpl.
    rewrite <- Permutation_middle. by rewrite IH.
Qed.

Lemma Object_values_perm {A} (o : JsObject A) : Object_values o ≡ₚ received_values o.
Proof.
  unfold Object_values. rewrite <- entries_perm.
  apply Permutation_app_tail. apply fmap_Permutation, sort_index_perm.
Qed.

Lemma index_entries_cons_index {A} n (v : A) o :
  index_entries ((ArrayIndex n, v) :: o) = (n, v) :: index_entries o.
Proof. done. Qed.

Lemma index_entries_cons_name {A} s (v : A) o :
  index_entries ((Name s, v) :: o) = index_entries o.
Proof. done. Qed.

Lemma name_entries_cons_index {A} n (v : A) o :
  name_entries ((ArrayIndex n, v) :: o) = name_entries o.
Proof. done. Qed.

Lemma name_entries_cons_name {A} s (v : A) o :
  name_entries ((Name s, v) :: o) = v :: name_entries o.
Proof. done. Qed.

Lemma names_only {A} (o : JsObject A) :
  forallb (λ kv, is_name kv.1) o = true →
  index_entries o = [] ∧ name_entries o = received_values o.
Proof.
  induction o as [| [[n | s] v] o IH]; intros H; [done | done |].
  simpl in H. destruct (IH H) as [Hi Hn].
  rewrite index_entries_cons_name, name_entries_cons_name, Hi, Hn. done.
Qed.

Lemma ordered_sorted {A} (o : JsObject A) :
  enumeration_ordered o = true → sort_index (index_entries o) = index_entries o.
Proof.
  induction o as [| [[n | s] v] o IH]; intros H; [done | |].
  - simpl in H. apply andb_true_iff in H as [Hhd Hrest].
    specialize (IH Hrest).
    rewrite index_entries_cons_index. simpl. rewrite IH.
    destruct o as [| [[m | s] w] o']; [done | |].
    + rewrite index_entries_cons_index. simpl. by rewrite Hhd.
    + simpl in Hrest. destruct (names_only _ Hrest) as [He _].
      rewrite index_entries_cons_name. by rewrite He.
  - simpl in H. rewrite index_entries_cons_name.
    destruct (names_only _ H) as [-> _]. done.
Qed.

Lemma entries_ordered {A} (o : JsObject A) :
  enumeration_ordered o = true →
  (index_entries o).*2 ++ name_entries o = received_values o.
Proof.
  induction o as [| [[n | s] v] o IH]; intros H; [done | |].
  - simpl in H. apply andb_true_iff in H as [_ Hrest].
    rewrite index_entries_cons_index, name_entries_cons_index.
    rewrite fmap_cons. simpl. f_equal. exact (IH Hrest).
  - simpl in H. destruct (names_only _ H) as [Hi Hn].
    rewrite index_entries_cons_name, name_entries_cons_name, Hi, Hn. done.
Qed.

Lemma Object_values_ordered {A} (o : JsObject A) :
  enumeration_ordered o = true → Object_values o = received_values o.
Proof.
  intros H. unfold Object_values. rewrite (ordered_sorted _ H). by apply entries_ordered.
Qed.

Lemma makeImageCard_defined page : imageinfo page ≠ [] → is_Some (makeImageCard page).
Proof. unfold makeImageCard. destruct (imageinfo page); [done | eauto]. Qed.

(** C2, as the code has it: when the response has a result set whose
    records all carry image information, the rest of [fetchImages] appends
    one card per record, each made by [makeImageCard] from its record, in the
    order in which [Object.values] lists the records: array-index
    identifiers ascending, then the others.  That is a rearrangement of the
    records received, and it is the order received when the body already
    lists them that way. *)
Theorem C2_one_card_per_result (st : State) (n : nat) (r : ResponseData) (q : Query)
    (ps : JsObject Page) :
  inFlight st = S n → query r = Some q → pages q = Some ps →
  Forall (λ page, imageinfo page ≠ []) (received_values ps) →
  ∃ cards,
    resultsContainer (step st (Fulfilled r)) = resultsContainer st ++ cards ∧
    Forall2 (λ page card, makeImageCard page = Some card) (Object_values ps) cards ∧
    length cards = length ps ∧
    Object_values ps ≡ₚ received_values ps ∧
    (enumeration_ordered ps = true →
       Forall2 (λ page card, makeImageCard page = Some card) (received_values ps) cards).
Proof.
  intros Hn Hq Hp Hinfo.
  assert (is_Some (mapM makeImageCard (Object_values ps))) as [cards Hcards].
  { apply mapM_is_Some_2. rewrite Object_values_perm.
    eapply Forall_impl; [exact Hinfo |]. intros page. apply makeImageCard_defined. }
  exists cards. split; [| split; [| split; [| split]]].
  - simpl. rewrite Hn. unfold fetchImages_fulfilled, try_block, render_response. simpl.
    rewrite Hq. rewrite andb_false_r. simpl. rewrite Hp, Hcards.
    unfold advance_cursor. by destruct (continue r).
  - by apply mapM_Some_1.
  - apply length_mapM in Hcards. rewrite <- Hcards.
    rewrite (Permutation_length (Object_values_perm ps)).
    unfold received_values. by rewrite length_fmap.
  - apply Object_values_perm.
  - intros Hord. rewrite <- (Object_values_ordered _ Hord). by apply mapM_Some_1.
Qed.

Lemma C2_one_card_per_result_witness :
  resultsContainer (step loading_cats (Fulfilled sample_response))
  = [sample_card "Beta"; sample_card "Alpha"].
Proof.
  destruct (C2_one_card_per_result loading_cats 0 sample_response
              {| pages := Some sample_pages |} sample_pages)
    as (cards & Hres & Hcards & _); [done | done | done | repeat constructor; done |].
  rewrite Hres. simpl.
  apply mapM_Some_2 in Hcards. vm_compute in Hcards. by injection Hcards as <-.
Defined.

(** C2 as stated fails on the order: the body lists the record of page 20
    before the record of page 3, and the cards are appended the other way
    round. *)
Lemma C2_cards_not_in_received_order :
  received_values sample_pages = [sample_page "File:Alpha.jpg"; sample_page "File:Beta.png"] ∧
  mapM makeImageCard (received_values sample_pages)
  = Some [sample_card "Alpha"; sample_card "Beta"] ∧
  resultsContainer loading_cats = [] ∧
  resultsContainer (step loading_cats (Fulfilled sample_response))
  = [sample_card "Beta"; sample_card "Alpha"].
Proof. done. Qed.

(** ** Two runs *)

(** A first page with no result set: the no-results element is shown,
    [hasMore] is false and no card is rendered. *)
Example search_without_results :
  let st := run (initial false false)
              [Search (Some "zzz-no-such-thing") EmptyString;
               Fulfilled {| query := None; continue := None |}] in
  noResultsShown st = true ∧ hasMore st = false ∧ resultsContainer st = [] ∧
  isLoading st = false ∧ path_offered st = false.
Proof. done. Qed.

(** A search submitted while the page of the previous one is in flight: the
    page that arrives is rendered under the new query, and the next scroll
    asks for the new query at the old query's continuation offset. *)
Example search_while_loading :
  let st := run loading_cats [Search (Some "dogs") EmptyString; Fulfilled sample_response;
                              ScrollLoad] in
  currentQuery st = "dogs" ∧
  resultsContainer st = [sample_card "Beta"; sample_card "Alpha"] ∧
  requests st = [("cats", 0%Z); ("dogs", 24%Z)].
Proof. done. Qed.

End PaginationFacts.

(** * Properties of the AI assist controller *)

Module AssistFacts.
Import Assist.

(** ** Strings *)

Lemma append_assoc (a b c : string) : (a +:+ b) +:+ c = a +:+ (b +:+ c).
Proof.
  induction a as [| x a IH]; [done |].
  change (String x ((a +:+ b) +:+ c) = String x (a +:+ (b +:+ c))). by rewrite IH.
Qed.

Lemma append_empty_r (a : string) : a +:+ EmptyString = a.
Proof.
  induction a as [| x a IH]; [done |].
  change (String x (a +:+ EmptyString) = String x a). by rewrite IH.
Qed.


(** ** What each piece writes *)

Lemma pane_set_pane p v st : pane p (set_pane p v st) = v.
Proof. by destruct p. Qed.


Lemma generate_cached prompt displayEl isChat st img :
  currentImageData st = Some img → truthy (base64 img) = true → client_ready st = true →
  let st' := generateAiContent prompt displayEl isChat st in
  currentImageData st' = Some img ∧ imageRequests st' = imageRequests st ∧
  tasks st' = <[nextTask st := AwaitStream displayEl isChat]> (tasks st) ∧
  nextTask st' = S (nextTask st) ∧
  streamRequests st' = streamRequests st ++
    [{| part_mimeType := mimeType img; part_data := base64 img; part_text := prompt |}].
Proof.
  intros Hi Ht Hr. unfold generateAiContent. rewrite Hi, Ht.
  unfold client_ready in Hr. revert Hr. unfold request_stream, getAi.
  destruct isChat, displayEl; simpl;
    destruct (aiClient st), (constructorThrows st); simpl; done.
Qed.

Lemma generate_uncached prompt displayEl isChat st img :
  currentImageData st = Some img → truthy (base64 img) = false → client_ready st = true →
  let st' := generateAiContent prompt displayEl isChat st in
  currentImageData st' = Some img ∧ imageRequests st' = imageRequests st ++ [url img] ∧
  tasks st' = <[nextTask st := AwaitImage prompt displayEl isChat]> (tasks st) ∧
  nextTask st' = S (nextTask st) ∧ streamRequests st' = streamRequests st.
Proof.
  intros Hi Ht Hr. unfold generateAiContent. rewrite Hi, Ht.
  unfold client_ready in Hr. revert Hr. unfold getAi.
  destruct isChat, displayEl; simpl;
    destruct (aiClient st), (constructorThrows st); simpl; done.
Qed.

Lemma generate_ready prompt displayEl isChat st img :
  currentImageData st = Some img → client_ready st = true →
  let st' := generateAiContent prompt displayEl isChat st in
  aiClient st' = true ∧ constructorThrows st' = constructorThrows st ∧
  aiLoaderShown st' = true ∧
  pane displayEl st' = (if isChat then pane displayEl st else []).
Proof.
  intros Hi Hr. unfold generateAiContent. rewrite Hi.
  unfold client_ready in Hr. revert Hr. unfold request_stream, getAi.
  destruct (truthy (base64 img)), isChat, displayEl; simpl;
    destruct (aiClient st) eqn:Hc, (constructorThrows st) eqn:Hk; simpl; rewrite ?Hc, ?Hk;
    done.
Qed.

(** The call when the client cannot be made: it ends on line 93. *)
Lemma generate_refused prompt displayEl isChat st img :
  currentImageData st = Some img → client_ready st = false →
  let st' := generateAiContent prompt displayEl isChat st in
  currentImageData st' = Some img ∧ imageRequests st' = imageRequests st ∧
  tasks st' = tasks st ∧ nextTask st' = nextTask st ∧
  streamRequests st' = streamRequests st ∧
  aiClient st' = false ∧ constructorThrows st' = true ∧ aiLoaderShown st' = true ∧
  lightboxShown st' = lightboxShown st ∧
  pane displayEl st' = (if isChat then pane displayEl st else []).
Proof.
  intros Hi Hr. unfold generateAiContent. rewrite Hi.
  unfold client_ready in Hr. revert Hr. unfold getAi.
  destruct isChat, displayEl; simpl;
    destruct (aiClient st) eqn:Hc, (constructorThrows st) eqn:Hk; simpl; rewrite ?Hc, ?Hk;
    done.
Qed.

Lemma fail_fields t displayEl e st :
  let st' := fail t displayEl e st in
  currentImageData st' = currentImageData st ∧ tasks st' = delete t (tasks st) ∧
  nextTask st' = nextTask st ∧ imageRequests st' = imageRequests st ∧
  streamRequests st' = streamRequests st ∧
  pane displayEl st' = append_markup (error_markup e) (pane displayEl st) ∧
  aiLoaderShown st' = false.
Proof. by destruct displayEl. Qed.

Lemma stream_opened_fields t displayEl isChat st :
  let st' := stream_opened t displayEl isChat st in
  currentImageData st' = currentImageData st ∧
  tasks st' = <[t := Streaming displayEl isChat EmptyString]> (tasks st) ∧
  nextTask st' = nextTask st ∧ imageRequests st' = imageRequests st ∧
  streamRequests st' = streamRequests st ∧
  pane displayEl st' =
    if isChat then pane displayEl st ++ [Div (Some t) "chat-msg ai-msg" EmptyString]
    else pane displayEl st.
Proof. by destruct isChat, displayEl. Qed.

Lemma chunk_arrived_fields t displayEl isChat fullText text st :
  let st' := chunk_arrived t displayEl isChat fullText text st in
  let full := fullText +:+ js_string text in
  currentImageData st' = currentImageData st ∧
  tasks st' = <[t := Streaming displayEl isChat full]> (tasks st) ∧
  nextTask st' = nextTask st ∧ imageRequests st' = imageRequests st ∧
  streamRequests st' = streamRequests st ∧
  pane displayEl st' =
    if isChat then write_div t full <$> pane displayEl st else [TextNode full].
Proof. by destruct isChat, displayEl. Qed.

Lemma stream_ended_fields t st :
  let st' := stream_ended t st in
  currentImageData st' = currentImageData st ∧ tasks st' = delete t (tasks st) ∧
  nextTask st' = nextTask st ∧ imageRequests st' = imageRequests st ∧
  streamRequests st' = streamRequests st ∧ aiLoaderShown st' = false.
Proof. done. Qed.

(** ** No image selected *)

(** C7: with no image reference, [generateAiContent] returns the state it
    was given, so no request is issued and no pane is written; the story and
    analysis actions, which do nothing but call it, change nothing
    either. *)
Theorem C7_generate_without_image (prompt : string) (displayEl : Pane) (isChat : bool)
    (st : State) :
  currentImageData st = None →
  generateAiContent prompt displayEl isChat st = st ∧
  (∀ genre, step st (GenreClick genre) = st) ∧ step st AnalyzeClick = st.
Proof.
  intros H. unfold step, handleGenreClick, handleAnalyzeClick, generateAiContent.
  by rewrite H.
Qed.

Lemma C7_generate_without_image_witness :
  generateAiContent "Describe it" storyDisplay false (initial [] [] [] false false false)
  = initial [] [] [] false false false.
Proof.
  exact (proj1 (C7_generate_without_image "Describe it" storyDisplay false
                  (initial [] [] [] false false false) eq_refl)).
Defined.

(** ** A failed download or encoding *)

(** C10: a call made for an image that has no encoding, whose download is
    rejected or whose reader fails, leaves the image reference exactly as it
    was before the call, so [mimeType] and [base64] that were unset are still
    unset: nothing is stored at any stage.  The pane then ends with the
    paragraph of class error that says AI unavailable and gives the error's
    message, the call has ended with the loader hidden, and no generation
    request has been issued; and the next call downloads the image once
    more. *)
Theorem C10_failed_encoding_not_cached (st : State) (img : ImageData) (prompt : string)
    (displayEl : Pane) (isChat : bool) (e : JsError) (evs : list Event) :
  currentImageData st = Some img → truthy (base64 img) = false →
  client_ready st = true →
  encoding_fails (nextTask st) e evs →
  let st' := run (generateAiContent prompt displayEl isChat st) evs in
  currentImageData st' = Some img ∧
  pane displayEl st'
  = (if isChat then reparsed <$> pane displayEl st else [])
      ++ [Markup ("<p class=" +:+ quote +:+ "error" +:+ quote +:+ ">AI unavailable: "
                    +:+ js_string (message e) +:+ "</p>")] ∧
  imageRequests st' = imageRequests st ++ [url img] ∧
  streamRequests st' = streamRequests st ∧
  tasks st' !! nextTask st = None ∧ aiLoaderShown st' = false ∧
  (∀ prompt' displayEl' isChat',
     let st'' := generateAiContent prompt' displayEl' isChat' st' in
     imageRequests st'' = imageRequests st ++ [url img; url img] ∧
     tasks st'' !! nextTask st' = Some (AwaitImage prompt' displayEl' isChat')).
Proof.
  intros Hi Ht Hr Hevs st'.
  destruct (generate_uncached prompt displayEl isChat st img Hi Ht Hr)
    as (Hi1 & Hr1 & Ht1 & _ & Hs1).
  destruct (generate_ready prompt displayEl isChat st img Hi Hr) as (Hc1 & _ & _ & Hp1).
  set (st1 := generateAiContent prompt displayEl isChat st) in *.
  set (t := nextTask st) in *.
  assert (∃ st2, st' = fail t displayEl e st2 ∧ currentImageData st2 = Some img ∧
                 imageRequests st2 = imageRequests st ++ [url img] ∧
                 streamRequests st2 = streamRequests st ∧ aiClient st2 = true ∧
                 pane displayEl st2 = (if isChat then pane displayEl st else []))
    as (st2 & -> & Hi2 & Hr2 & Hs2 & Hc2 & Hp2).
  { subst st'. destruct Hevs as [| blobType].
    - exists st1. cbn [run foldl step]. rewrite Ht1, lookup_insert_eq. done.
    - exists (set_tasks (<[t := AwaitReader prompt displayEl isChat blobType]> (tasks st1))
                st1).
      cbn [run foldl step]. rewrite Ht1, lookup_insert_eq.
      cbn [tasks set_tasks]. rewrite lookup_insert_eq.
      split; [done |]. split; [done |]. split; [done |]. split; [done |]. split; [done |].
      by destruct displayEl. }
  destruct (fail_fields t displayEl e st2) as (Hif & Htf & Hnf & Hrf & Hsf & Hpf & Hlf).
  assert (aiClient (fail t displayEl e st2) = true) as Hcf by (by destruct displayEl).
  split; [congruence |]. split.
  { rewrite Hpf, Hp2. unfold append_markup, error_markup. by destruct isChat. }
  split; [congruence |]. split; [congruence |].
  split; [rewrite Htf; apply lookup_delete_eq |]. split; [done |].
  intros prompt' displayEl' isChat'.
  destruct (generate_uncached prompt' displayEl' isChat' (fail t displayEl e st2) img)
    as (_ & Hr3 & Ht3 & _); [congruence | done | |].
  { unfold client_ready. by rewrite Hcf. }
  split.
  - rewrite Hr3, Hrf, Hr2. by rewrite <- app_assoc.
  - rewrite Ht3. apply lookup_insert_eq.
Qed.

(** The reader fails on the blob of the sample image: nothing is stored,
    and the analysis pane holds the error paragraph alone. *)
Lemma C10_failed_encoding_not_cached_witness :
  let st' := run (generateAiContent "Describe" analysisDisplay false viewing)
               [ImageFetched (nextTask viewing) "image/jpeg";
                ReaderFailed (nextTask viewing) {| message := None |}] in
  currentImageData st'
  = Some {| url := "https://upload.example/sunset.jpg"; title := "Sunset";
            mimeType := None; base64 := None |} ∧
  pane analysisDisplay st'
  = (if false then reparsed <$> pane analysisDisplay viewing else [])
      ++ [Markup ("<p class=" +:+ quote +:+ "error" +:+ quote +:+ ">AI unavailable: "
                    +:+ js_string (message {| message := None |}) +:+ "</p>")].
Proof.
  intros st'.
  destruct (C10_failed_encoding_not_cached viewing
              {| url := "https://upload.example/sunset.jpg"; title := "Sunset";
                 mimeType := None; base64 := None |}
              "Describe" analysisDisplay false {| message := None |}
              [ImageFetched (nextTask viewing) "image/jpeg";
               ReaderFailed (nextTask viewing) {| message := None |}]
              eq_refl eq_refl eq_refl (fails_at_reader _ _ "image/jpeg"))
    as (Hi & Hp & _).
  split; [exact Hi | exact Hp].
Defined.

(** ** The cached encoding *)










(** ** Streaming *)

Lemma chunk_step st t displayEl isChat acc text :
  tasks st !! t = Some (Streaming displayEl isChat acc) →
  step st (ChunkArrived t text) = chunk_arrived t displayEl isChat acc text st.
Proof. intros H. cbn [step]. by rewrite H. Qed.

Lemma write_div_own t className old text :
  write_div t text (Div (Some t) className old) = Div (Some t) className text.
Proof. simpl. by rewrite Nat.eqb_refl. Qed.

(** Chunks that arrive one after the other at a call inside its loop. *)
Lemma run_chunks t displayEl isChat chunks : ∀ st acc,
  tasks st !! t = Some (Streaming displayEl isChat acc) →
  let st' := run st (chunk_events t chunks) in
  tasks st' !! t = Some (Streaming displayEl isChat (acc +:+ concatenation chunks)) ∧
  (isChat = false → chunks ≠ [] →
     pane displayEl st' = [TextNode (acc +:+ concatenation chunks)]) ∧
  (isChat = true → ∀ className,
     last (pane displayEl st) = Some (Div (Some t) className acc) →
     last (pane displayEl st') = Some (Div (Some t) className (acc +:+ concatenation chunks))).
Proof.
  induction chunks as [| c chunks IH]; intros st acc Ht.
  - simpl. rewrite append_empty_r. done.
  - cbn [chunk_events fmap list_fmap run foldl]. rewrite (chunk_step _ _ _ _ _ _ Ht).
    destruct (chunk_arrived_fields t displayEl isChat acc (Some c) st)
      as (_ & Hts & _ & _ & _ & Hp).
    cbn [js_string] in Hts, Hp.
    set (st1 := chunk_arrived t displayEl isChat acc (Some c) st) in *.
    assert (tasks st1 !! t = Some (Streaming displayEl isChat (acc +:+ c))) as Ht1
      by (by rewrite Hts, lookup_insert_eq).
    destruct (IH st1 (acc +:+ c) Ht1) as (IHt & IHtext & IHdiv).
    change (concatenation (c :: chunks)) with (c +:+ concatenation chunks).
    rewrite <- append_assoc.
    split; [exact IHt |]. split.
    + intros Hc _. destruct chunks as [| c' chunks].
      * simpl. rewrite Hp, Hc. by rewrite append_empty_r.
      * by apply IHtext.
    + intros Hc className Hlast. apply IHdiv; [done |].
      rewrite Hp, Hc, fmap_last, Hlast. simpl. by rewrite Nat.eqb_refl.
Qed.








(** ** Two runs *)

(** A download started for one image and finished after another image has
    been selected stores its encoding on the image selected now: line 98
    reads [currentImageData] again after the [await]. *)
Example late_encoding_lands_on_new_selection :
  currentImageData
    (run viewing [AnalyzeClick;
                  CardClick {| ld_url := "https://upload.example/dawn.jpg"; ld_title := "Dawn";
                               ld_author := "Uploader: Ada";
                               ld_thumb := "https://upload.example/dawn-thumb.jpg" |};
                  ImageFetched 0 "image/jpeg";
                  ReaderLoaded 0 "data:image/jpeg;base64,QUJD"])
  = Some {| url := "https://upload.example/dawn.jpg"; title := "Dawn";
            mimeType := Some "image/jpeg"; base64 := Some "QUJD" |}.
Proof. vm_compute. reflexivity. Qed.

(** A download finished after the viewer has been closed: the write of line
    98 throws, and the error paragraph is appended to the pane. *)
Example late_encoding_after_close :
  let st := run viewing [AnalyzeClick; CloseClick; ImageFetched 0 "image/jpeg";
                         ReaderLoaded 0 "data:image/jpeg;base64,QUJD"] in
  currentImageData st = None ∧
  analysis st = [Markup (error_markup null_write_error)] ∧
  streamRequests st = [].
Proof. vm_compute. done. Qed.

End AssistFacts.

(** * Further properties of the pagination controller *)

Module PaginationMore.
Import Pagination PaginationFacts.

(** ** Helpers *)

Lemma run_invariant (P : State → Prop) :
  (∀ st ev, P st → P (step st ev)) → ∀ evs st, P st → P (run st evs).
Proof.
  intros Hstep evs. induction evs as [| ev evs IH]; intros st HP; [done |].
  simpl. apply IH, Hstep, HP.
Qed.

Lemma fetchImages_view st :
  let st' := fetchImages st in
  currentQuery st' = currentQuery st ∧ gsroffset st' = gsroffset st ∧
  hasMore st' = hasMore st ∧ resultsContainer st' = resultsContainer st ∧
  noResultsShown st' = noResultsShown st ∧ initialLoaderShown st' = initialLoaderShown st.
Proof. unfold fetchImages. by destruct (guard_blocks st). Qed.

Lemma cards_exist (ps : JsObject Page) :
  Forall (λ page, imageinfo page ≠ []) (received_values ps) →
  ∃ cards, mapM makeImageCard (Object_values ps) = Some cards ∧ length cards = length ps.
Proof.
  intros Hinfo.
  assert (is_Some (mapM makeImageCard (Object_values ps))) as [cards Hcards].
  { apply mapM_is_Some_2. rewrite Object_values_perm.
    eapply Forall_impl; [exact Hinfo |]. intros page. apply makeImageCard_defined. }
  exists cards. split; [done |].
  apply length_mapM in Hcards. rewrite <- Hcards.
  rewrite (Permutation_length (Object_values_perm ps)).
  unfold received_values. by rewrite length_fmap.
Qed.

Lemma render_pages r q ps cards st :
  query r = Some q → pages q = Some ps →
  mapM makeImageCard (Object_values ps) = Some cards →
  render_response r st
  = Normal (set_resultsContainer (resultsContainer st ++ cards)
              (set_initialLoaderShown false st)).
Proof.
  intros Hq Hp Hc. unfold render_response. simpl.
  rewrite Hq, andb_false_r. simpl. by rewrite Hp, Hc.
Qed.

Lemma snoc_not_same {A} (l : list A) x : l ++ [x] ≠ l.
Proof.
  intros H. apply (f_equal length) in H. rewrite length_app in H. simpl in H. lia.
Qed.

(** ** The scroll helper and the guard *)

(** X1: once a query is set, the scroll helper is told that a next page
    exists exactly when a load would issue a request, which is then for the
    current query at the current cursor; when it is told there is none, a
    load changes nothing; and after a load it is told there is none. *)
Theorem X1_offer_matches_fetch (st : State) :
  currentQuery st ≠ EmptyString →
  (path_offered st = true ↔
   requests (step st ScrollLoad) = requests st ++ [(currentQuery st, gsroffset st)]) ∧
  (path_offered st = false → step st ScrollLoad = st) ∧
  path_offered (step st ScrollLoad) = false.
Proof.
  intros Hq. apply String.eqb_neq in Hq.
  assert (guard_blocks st = negb (path_offered st)) as Hg.
  { unfold guard_blocks, path_offered. rewrite Hq.
    by destruct (isLoading st), (hasMore st). }
  cbn [step]. destruct (path_offered st) eqn:Hp.
  - assert (guard_blocks st = false) as Hpass by by rewrite Hg.
    rewrite (fetchImages_passes _ Hpass). split; [done |]. split; [done |].
    unfold path_offered. simpl. apply andb_false_r.
  - assert (guard_blocks st = true) as Hblock by by rewrite Hg.
    rewrite (fetchImages_blocked _ Hblock). split; [| done].
    split; [done |]. intros H. symmetry in H. by apply snoc_not_same in H.
Qed.

Lemma X1_offer_matches_fetch_witness :
  path_offered loading_cats = false ∧ step loading_cats ScrollLoad = loading_cats.
Proof.
  destruct (X1_offer_matches_fetch loading_cats) as (_ & Hnone & _); [done |].
  split; [reflexivity | exact (Hnone eq_refl)].
Defined.

(** ** A whole round *)

(** X2: from a page with no fetch in flight, a search for a new query
    followed by its first page, when the page has results that all carry
    image information and a continuation offset, leaves exactly one card per
    result and nothing else in the results, the cursor at the continuation
    offset, [hasMore] true and [isLoading] false; the next scroll load then
    asks for the same query at that offset. *)
Theorem X2_search_page_scroll (st : State) (queryStr : option string) (typed : string)
    (r : ResponseData) (q : Query) (ps : JsObject Page) (offset : Z) :
  isLoading st = false → inFlight st = 0 →
  search_query queryStr typed ≠ EmptyString →
  search_query queryStr typed ≠ currentQuery st →
  query r = Some q → pages q = Some ps →
  Forall (λ page, imageinfo page ≠ []) (received_values ps) →
  continue r = Some offset →
  let st' := run st [Search queryStr typed; Fulfilled r] in
  mapM makeImageCard (Object_values ps) = Some (resultsContainer st') ∧
  length (resultsContainer st') = length ps ∧
  query_state st' = (search_query queryStr typed, offset, false, true) ∧
  initialLoaderShown st' = false ∧ noResultsShown st' = false ∧
  requests (step st' ScrollLoad)
  = requests st ++ [(search_query queryStr typed, 0%Z); (search_query queryStr typed, offset)].
Proof.
  intros Hl Hn Hne Hnew Hq Hp Hinfo Hc st'.
  destruct (cards_exist ps Hinfo) as (cards & Hcards & Hlen).
  assert (st' = set_isLoading false
                  (set_gsroffset offset
                     (set_resultsContainer cards
                        (set_initialLoaderShown false
                           (set_inFlight 0
                              (set_requests (requests st ++ [(search_query queryStr typed, 0%Z)])
                                 (set_isLoading true
                                    (reset_for (search_query queryStr typed) st)))))))) as ->.
  { subst st'. cbn [run foldl step]. rewrite handleSearch_new by done.
    rewrite fetchImages_passes.
    2: { unfold guard_blocks. simpl. rewrite Hl. simpl. by apply String.eqb_neq. }
    simpl. rewrite Hn. unfold fetchImages_fulfilled, try_block.
    rewrite (render_pages r q ps cards) by done.
    unfold advance_cursor. rewrite Hc. reflexivity. }
  split; [exact Hcards |]. split; [exact Hlen |]. do 3 (split; [done |]).
  cbn [step]. rewrite fetchImages_passes.
  - simpl. by rewrite <- app_assoc.
  - unfold guard_blocks. simpl. by apply String.eqb_neq.
Qed.

Lemma X2_search_page_scroll_witness :
  requests (step (run (initial false false)
                    [Search (Some "cats") EmptyString; Fulfilled sample_response]) ScrollLoad)
  = requests (initial false false) ++ [("cats", 0%Z); ("cats", 24%Z)].
Proof.
  refine (proj2 (proj2 (proj2 (proj2 (proj2
    (X2_search_page_scroll (initial false false) (Some "cats") EmptyString
       sample_response {| pages := Some sample_pages |} sample_pages 24%Z
       eq_refl eq_refl _ _ eq_refl eq_refl _ eq_refl)))))).
  - discriminate.
  - discriminate.
  - repeat constructor; discriminate.
Defined.

(** ** What the page keeps true *)

Lemma step_no_results st ev :
  (noResultsShown st = true → hasMore st = false) →
  noResultsShown (step st ev) = true → hasMore (step st ev) = false.
Proof.
  intros Hinv. destruct ev as [queryStr typed | | r |]; cbn [step].
  - unfold handleSearch.
    destruct (String.eqb _ _ || String.eqb _ _); [done |].
    destruct (fetchImages_view (reset_for (search_query queryStr typed) st))
      as (_ & _ & _ & _ & -> & _). done.
  - destruct (fetchImages_view st) as (_ & _ & -> & _ & -> & _). done.
  - destruct (inFlight st) as [| n]; [done |].
    unfold fetchImages_fulfilled, try_block, render_response, advance_cursor. simpl.
    destruct (Z.eqb (gsroffset st) 0 && missing (query r)).
    { by destruct (continue r). }
    destruct (query r ≫= pages) as [ps |].
    + destruct (mapM makeImageCard (Object_values ps)); [| done].
      by destruct (continue r).
    + by destruct (continue r).
  - by destruct (inFlight st).
Qed.

(** X3: in every state reached from a page that starts without the
    no-results message, the message is shown only while [hasMore] is false:
    the scroll helper is then told there is no next page, and a load changes
    nothing. *)
Theorem X3_no_results_stops_paging (loader : bool) (evs : list Event) :
  let st := run (initial false loader) evs in
  noResultsShown st = true →
  hasMore st = false ∧ path_offered st = false ∧ step st ScrollLoad = st.
Proof.
  intros st Hshown.
  assert (hasMore st = false) as Hm.
  { revert Hshown. subst st.
    apply (run_invariant (λ s, noResultsShown s = true → hasMore s = false)); [| done].
    intros s ev. apply step_no_results. }
  split; [done |]. split.
  - unfold path_offered. by rewrite Hm.
  - cbn [step]. apply fetchImages_blocked, guard_blocks_cases. auto.
Qed.

Lemma X3_no_results_stops_paging_witness :
  hasMore (run (initial false true)
             [Search (Some "zzz") EmptyString; Fulfilled {| query := None; continue := None |}])
  = false.
Proof.
  exact (proj1 (X3_no_results_stops_paging true
                  [Search (Some "zzz") EmptyString;
                   Fulfilled {| query := None; continue := None |}] eq_refl)).
Defined.

Lemma step_loader st ev :
  (initialLoaderShown st = true → isLoading st = true) →
  initialLoaderShown (step st ev) = true → isLoading (step st ev) = true.
Proof.
  intros Hinv. destruct ev as [queryStr typed | | r |]; cbn [step].
  - unfold handleSearch.
    destruct (String.eqb (search_query queryStr typed) EmptyString) eqn:He; [done |].
    destruct (String.eqb (search_query queryStr typed) (currentQuery st)); [done |].
    simpl. intros _. unfold fetchImages, guard_blocks. simpl. rewrite He.
    destruct (isLoading st) eqn:Hl; simpl; [exact Hl | done].
  - unfold fetchImages. destruct (guard_blocks st); done.
  - destruct (inFlight st) as [| n]; [done |].
    unfold fetchImages_fulfilled, try_block, render_response, advance_cursor. simpl.
    destruct (Z.eqb (gsroffset st) 0 && missing (query r)).
    { by destruct (continue r). }
    destruct (query r ≫= pages) as [ps |].
    + destruct (mapM makeImageCard (Object_values ps)); [| done].
      by destruct (continue r).
    + by destruct (continue r).
  - by destruct (inFlight st).
Qed.

(** X4: in every state reached from a page that starts without the initial
    loader, the loader is shown only while a page fetch is in flight. *)
Theorem X4_loader_only_while_loading (noResults : bool) (evs : list Event) :
  let st := run (initial noResults false) evs in
  initialLoaderShown st = true → isLoading st = true ∧ inFlight st = 1.
Proof.
  intros st Hshown.
  assert (isLoading st = true) as Hl.
  { revert Hshown. subst st.
    apply (run_invariant (λ s, initialLoaderShown s = true → isLoading s = true)); [| done].
    intros s ev. apply step_loader. }
  split; [done |].
  assert (consistent st) as Hc by apply run_consistent, initial_consistent.
  unfold consistent in Hc. by rewrite Hl in Hc.
Qed.

Lemma X4_loader_only_while_loading_witness :
  isLoading (run (initial false false) [Search (Some "cats") EmptyString]) = true.
Proof.
  exact (proj1 (X4_loader_only_while_loading false [Search (Some "cats") EmptyString] eq_refl)).
Defined.

Lemma fetchImages_requests st :
  Forall (λ rq : string * Z, rq.1 ≠ EmptyString) (requests st) →
  Forall (λ rq : string * Z, rq.1 ≠ EmptyString) (requests (fetchImages st)).
Proof.
  intros H. destruct (guard_blocks st) eqn:Hg.
  - by rewrite fetchImages_blocked.
  - rewrite (fetchImages_passes _ Hg). simpl.
    apply Forall_app. split; [done |]. constructor; [| done].
    by destruct (guard_passes_fields _ Hg) as (_ & _ & ?).
Qed.

(** X5: no request is ever issued with an empty search term. *)
Theorem X5_no_empty_query_sent (noResults loader : bool) (evs : list Event) :
  Forall (λ rq : string * Z, rq.1 ≠ EmptyString) (requests (run (initial noResults loader) evs)).
Proof.
  apply (run_invariant (λ s, Forall (λ rq : string * Z, rq.1 ≠ EmptyString) (requests s)));
    [| constructor].
  intros st ev H. destruct ev as [queryStr typed | | r |]; cbn [step].
  - unfold handleSearch.
    destruct (String.eqb _ _ || String.eqb _ _); [done |].
    by apply fetchImages_requests.
  - by apply fetchImages_requests.
  - destruct (inFlight st) as [| n]; [done |].
    by destruct (fulfilled_fields r (set_inFlight n st)) as (_ & _ & ->).
  - by destruct (inFlight st).
Qed.

Lemma step_results_grow st ev :
  is_search ev = false → resultsContainer st `prefix_of` resultsContainer (step st ev).
Proof.
  intros Hev. destruct ev as [queryStr typed | | r |]; try discriminate Hev; cbn [step].
  - by destruct (fetchImages_view st) as (_ & _ & _ & -> & _).
  - destruct (inFlight st) as [| n]; [done |].
    unfold fetchImages_fulfilled, try_block, render_response, advance_cursor. simpl.
    destruct (Z.eqb (gsroffset st) 0 && missing (query r)).
    { by destruct (continue r). }
    destruct (query r ≫= pages) as [ps |].
    + destruct (mapM makeImageCard (Object_values ps)) as [items |]; [| done].
      destruct (continue r); simpl; by apply prefix_app_r.
    + by destruct (continue r).
  - by destruct (inFlight st).
Qed.

(** X6: without a search, the cards already rendered stay where they are:
    scroll loads and settlements only add cards after them. *)
Theorem X6_cards_only_appended (st : State) (evs : list Event) :
  Forall (λ ev, is_search ev = false) evs →
  resultsContainer st `prefix_of` resultsContainer (run st evs).
Proof.
  revert st. induction evs as [| ev evs IH]; intros st Hall; [done |].
  inversion Hall as [| ? ? Hev Hrest]; subst. simpl.
  etrans; [by apply step_results_grow | by apply IH].
Qed.

(** Two cards are shown and a second page brings two more: the first two
    stay in front. *)
Lemma X6_cards_only_appended_witness :
  let st := run loading_cats [Fulfilled sample_response] in
  resultsContainer st = [sample_card "Beta"; sample_card "Alpha"] ∧
  resultsContainer st
    `prefix_of` resultsContainer (run st [ScrollLoad; Fulfilled sample_response]) ∧
  resultsContainer (run st [ScrollLoad; Fulfilled sample_response])
  = [sample_card "Beta"; sample_card "Alpha"; sample_card "Beta"; sample_card "Alpha"].
Proof.
  intros st. split; [reflexivity |]. split; [| reflexivity].
  apply (X6_cards_only_appended st [ScrollLoad; Fulfilled sample_response]).
  repeat constructor.
Defined.

Lemma step_resubmits st ev :
  hasMore st = false → resubmits (currentQuery st) ev = true →
  hasMore (step st ev) = false ∧ requests (step st ev) = requests st ∧
  currentQuery (step st ev) = currentQuery st.
Proof.
  intros Hm Hev. destruct ev as [queryStr typed | | r |].
  - cbn [step]. rewrite handleSearch_ignored; [done |].
    simpl in Hev. apply orb_true_iff in Hev as [H | H]; apply String.eqb_eq in H; auto.
  - destruct (step_exhausted st ScrollLoad Hm eq_refl) as [? ?].
    split; [done |]. split; [done |]. cbn [step]. apply fetchImages_currentQuery.
  - destruct (step_exhausted st (Fulfilled r) Hm eq_refl) as [? ?].
    split; [done |]. split; [done |]. cbn [step].
    destruct (inFlight st) as [| n]; [done |].
    unfold fetchImages_fulfilled, try_block, render_response, advance_cursor. simpl.
    destruct (Z.eqb (gsroffset st) 0 && missing (query r)).
    { by destruct (continue r). }
    destruct (query r ≫= pages) as [ps |].
    + destruct (mapM makeImageCard (Object_values ps)); [| done].
      by destruct (continue r).
    + by destruct (continue r).
  - destruct (step_exhausted st Rejected Hm eq_refl) as [? ?].
    split; [done |]. split; [done |]. cbn [step]. by destruct (inFlight st).
Qed.

(** X7: once [hasMore] is false, because a request failed or the results
    are exhausted, submitting the same query again does not restart the
    search: whatever scroll loads, settlements, empty submissions and
    submissions of the current query follow, no request is issued. *)
Theorem X7_same_query_cannot_retry (st : State) (evs : list Event) :
  hasMore st = false →
  Forall (λ ev, resubmits (currentQuery st) ev = true) evs →
  requests (run st evs) = requests st ∧ hasMore (run st evs) = false ∧
  currentQuery (run st evs) = currentQuery st.
Proof.
  revert st. induction evs as [| ev evs IH]; intros st Hm Hall; [done |].
  inversion Hall as [| ? ? Hev Hrest]; subst. simpl.
  destruct (step_resubmits st ev Hm Hev) as (Hm' & Hr' & Hq').
  destruct (IH (step st ev) Hm') as (? & ? & ?); [by rewrite Hq' |].
  split; [congruence |]. split; [done | congruence].
Qed.

Lemma X7_same_query_cannot_retry_witness :
  requests (run (step loading_cats Rejected)
              [Search (Some "cats") EmptyString; ScrollLoad; Search None "cats"])
  = requests (step loading_cats Rejected).
Proof.
  refine (proj1 (X7_same_query_cannot_retry (step loading_cats Rejected)
                   [Search (Some "cats") EmptyString; ScrollLoad; Search None "cats"]
                   eq_refl _)).
  repeat constructor.
Defined.

(** ** Card titles *)

Lemma substring_all (s : string) : substring 0 (String.length s) s = s.
Proof. induction s as [| c s IH]; simpl; [done | by rewrite IH]. Qed.

Lemma replace_first_namespace (s : string) :
  replace_first "File:" EmptyString ("File:" +:+ s) = s.
Proof.
  unfold replace_first.
  assert (String.index 0 "File:" ("File:" +:+ s) = Some 0) as ->.
  { simpl. assert (String.prefix "File:" ("File:" +:+ s) = true) as Hp.
    { apply String.prefix_correct. simpl. by destruct s. }
    simpl in Hp. by rewrite Hp. }
  change (substring 0 (String.length s - 0) s = s).
  rewrite Nat.sub_0_r. apply substring_all.
Qed.

Lemma no_slash_dot_after_dot (a b : string) : no_slash_dot (a +:+ "." +:+ b) = false.
Proof.
  induction a as [| c a IH]; [done |].
  change (no_slash_dot (String c (a +:+ "." +:+ b)) = false).
  simpl. rewrite IH. apply andb_false_r.
Qed.

Lemma strip_extension_cons (c : ascii) (rest : string) :
  strip_extension (String c rest)
  = if Ascii.eqb c "." && negb (String.eqb rest EmptyString) && no_slash_dot rest
    then EmptyString else String c (strip_extension rest).
Proof. reflexivity. Qed.

Lemma strip_extension_app (base ext : string) :
  no_slash_dot ext = true → ext ≠ EmptyString →
  strip_extension (base +:+ "." +:+ ext) = base.
Proof.
  intros Hext Hne. apply String.eqb_neq in Hne.
  induction base as [| c base IH].
  - change (strip_extension (String "." ext) = EmptyString).
    rewrite strip_extension_cons. by rewrite Hext, Hne.
  - change (strip_extension (String c (base +:+ "." +:+ ext)) = String c base).
    rewrite strip_extension_cons.
    rewrite no_slash_dot_after_dot, andb_false_r. by rewrite IH.
Qed.

(** X8: for a result titled with the file namespace, a name and an
    extension (one or more characters after the last dot, none of them a
    slash), [makeImageCard] makes a [div] of class image-card, assigns to its
    [innerHTML] the template with the thumbnail URL as [src] and the escaped
    name in the place of the [alt] value and of the heading, and makes a
    click open the viewer with the name as title, the first image
    information's URL and thumbnail, and the uploader as author when no
    artist is given. *)
Theorem X8_card_title (base ext : string) (info : ImageInfo) (others : list ImageInfo) :
  no_slash_dot ext = true → ext ≠ EmptyString →
  makeImageCard {| title := "File:" +:+ base +:+ "." +:+ ext; imageinfo := info :: others |}
  = Some {| card_className := "image-card";
            card_innerHTML :=
              card_template (ii_thumburl info) (sanitizeHtml base) (sanitizeHtml base);
            card_click :=
              {| ld_url := ii_url info; ld_title := base;
                 ld_author := match ii_artist info with
                              | Some a => if String.eqb a EmptyString
                                          then "Uploader: " +:+ ii_user info else a
                              | None => "Uploader: " +:+ ii_user info
                              end;
                 ld_thumb := ii_thumburl info |} |}.
Proof.
  intros Hext Hne. unfold makeImageCard. cbn [title imageinfo].
  by rewrite replace_first_namespace, strip_extension_app.
Qed.

(** A name with an angle bracket and a double quote: the bracket is
    escaped in the markup, the quote is not. *)
Lemma X8_card_title_witness :
  card_innerHTML <$>
    makeImageCard {| title := "File:" +:+ ("a<b" +:+ double_quote +:+ "c") +:+ "." +:+ "jpg";
                     imageinfo := [sample_info] |}
  = Some (card_template "https://upload.example/thumb.jpg"
            ("a&lt;b" +:+ double_quote +:+ "c") ("a&lt;b" +:+ double_quote +:+ "c")).
Proof.
  rewrite (X8_card_title ("a<b" +:+ double_quote +:+ "c") "jpg" sample_info [] eq_refl
             ltac:(discriminate)).
  reflexivity.
Defined.

(** ** Escaping *)

Lemma sanitizeHtml_cons2 (c d : ascii) (s : string) :
  sanitizeHtml (String c (String d s))
  = if Ascii.eqb c "&" then "&amp;" +:+ sanitizeHtml (String d s)
    else if Ascii.eqb c "<" then "&lt;" +:+ sanitizeHtml (String d s)
    else if Ascii.eqb c ">" then "&gt;" +:+ sanitizeHtml (String d s)
    else if Ascii.eqb c (ascii_of_nat 194) && Ascii.eqb d (ascii_of_nat 160)
         then "&nbsp;" +:+ sanitizeHtml s
         else String c (sanitizeHtml (String d s)).
Proof. reflexivity. Qed.

Lemma sanitizeHtml_no_angle_two (s : string) :
  no_angle (sanitizeHtml s) = true ∧ ∀ c, no_angle (sanitizeHtml (String c s)) = true.
Proof.
  induction s as [| d s [IH1 IH2]].
  - split; [done |]. intros c. simpl.
    destruct (Ascii.eqb c "&"); [done |].
    destruct (Ascii.eqb c "<") eqn:Hlt; [done |].
    destruct (Ascii.eqb c ">") eqn:Hgt; [done |].
    simpl. by rewrite Hlt, Hgt.
  - split; [apply IH2 |]. intros c.
    specialize (IH2 d). rewrite sanitizeHtml_cons2.
    destruct (Ascii.eqb c "&"); [exact IH2 |].
    destruct (Ascii.eqb c "<") eqn:Hlt; [exact IH2 |].
    destruct (Ascii.eqb c ">") eqn:Hgt; [exact IH2 |].
    destruct (Ascii.eqb c (ascii_of_nat 194) && Ascii.eqb d (ascii_of_nat 160)); [exact IH1 |].
    change (negb (Ascii.eqb c "<") && negb (Ascii.eqb c ">")
            && no_angle (sanitizeHtml (String d s)) = true).
    by rewrite Hlt, Hgt, IH2.
Qed.

Lemma quotes_cons (c : ascii) (s : string) :
  quotes (String c s) = (if Ascii.eqb c (ascii_of_nat 34) then 1 else 0) + quotes s.
Proof. reflexivity. Qed.

Lemma sanitizeHtml_quotes_two (s : string) :
  quotes (sanitizeHtml s) = quotes s ∧
  ∀ c, quotes (sanitizeHtml (String c s)) = quotes (String c s).
Proof.
  induction s as [| d s [IH1 IH2]].
  - split; [done |]. intros c. simpl.
    destruct (Ascii.eqb_spec c "&") as [-> | _]; [done |].
    destruct (Ascii.eqb_spec c "<") as [-> | _]; [done |].
    destruct (Ascii.eqb_spec c ">") as [-> | _]; done.
  - split; [apply IH2 |]. intros c.
    specialize (IH2 d). rewrite sanitizeHtml_cons2.
    destruct (Ascii.eqb_spec c "&") as [-> | _].
    { change (quotes (sanitizeHtml (String d s)) = quotes (String d s)). exact IH2. }
    destruct (Ascii.eqb_spec c "<") as [-> | _].
    { change (quotes (sanitizeHtml (String d s)) = quotes (String d s)). exact IH2. }
    destruct (Ascii.eqb_spec c ">") as [-> | _].
    { change (quotes (sanitizeHtml (String d s)) = quotes (String d s)). exact IH2. }
    destruct (Ascii.eqb_spec c (ascii_of_nat 194)) as [-> | _];
      [destruct (Ascii.eqb_spec d (ascii_of_nat 160)) as [-> | _] |]; cbn [andb].
    + change (quotes (sanitizeHtml s) = quotes s). exact IH1.
    + rewrite !(quotes_cons (ascii_of_nat 194)). by rewrite IH2.
    + rewrite !(quotes_cons c). by rewrite IH2.
Qed.

(** X9: the output of [sanitizeHtml] never contains an angle bracket, and
    it contains exactly as many double quotes as the input: quotes are not
    escaped. *)
Theorem X9_sanitized_text (s : string) :
  no_angle (sanitizeHtml s) = true ∧ quotes (sanitizeHtml s) = quotes s.
Proof. split; [apply sanitizeHtml_no_angle_two | apply sanitizeHtml_quotes_two]. Qed.

Lemma X9_sanitized_text_witness :
  no_angle (sanitizeHtml ("<b>" +:+ double_quote +:+ "x" +:+ double_quote)) = true ∧
  quotes (sanitizeHtml ("<b>" +:+ double_quote +:+ "x" +:+ double_quote))
  = quotes ("<b>" +:+ double_quote +:+ "x" +:+ double_quote).
Proof. exact (X9_sanitized_text ("<b>" +:+ double_quote +:+ "x" +:+ double_quote)). Defined.

Lemma plain_text_cons2 (c d : ascii) (s : string) :
  plain_text (String c (String d s))
  = negb (Ascii.eqb c "&") && negb (Ascii.eqb c "<") && negb (Ascii.eqb c ">")
    && negb (Ascii.eqb c (ascii_of_nat 194) && Ascii.eqb d (ascii_of_nat 160))
    && plain_text (String d s).
Proof. reflexivity. Qed.

Lemma sanitizeHtml_plain_two (s : string) :
  (plain_text s = true → sanitizeHtml s = s) ∧
  ∀ c, plain_text (String c s) = true → sanitizeHtml (String c s) = String c s.
Proof.
  induction s as [| d s [IH1 IH2]].
  - split; [done |]. intros c. simpl. intros H.
    apply andb_true_iff in H as [H _]. apply andb_true_iff in H as [H _].
    apply andb_true_iff in H as [H Hgt]. apply andb_true_iff in H as [Hamp Hlt].
    apply negb_true_iff in Hamp, Hlt, Hgt. by rewrite Hamp, Hlt, Hgt.
  - split; [apply IH2 |]. intros c H. rewrite plain_text_cons2 in H.
    apply andb_true_iff in H as [H Hrest].
    apply andb_true_iff in H as [H Hnbsp]. apply andb_true_iff in H as [H Hgt].
    apply andb_true_iff in H as [Hamp Hlt].
    apply negb_true_iff in Hamp, Hlt, Hgt, Hnbsp.
    rewrite sanitizeHtml_cons2, Hamp, Hlt, Hgt, Hnbsp. by rewrite (IH2 d Hrest).
Qed.

(** X10: a text with no ampersand, no angle bracket and no no-break space
    comes out of [sanitizeHtml] unchanged. *)
Theorem X10_plain_text_unchanged (s : string) :
  plain_text s = true → sanitizeHtml s = s.
Proof. apply sanitizeHtml_plain_two. Qed.

(** A text with the copyright sign (bytes 194 169) and an accented letter
    (bytes 195 169). *)
Lemma X10_plain_text_unchanged_witness :
  let s := String (ascii_of_nat 194) (String (ascii_of_nat 169)
             ("2019 Caf" +:+ String (ascii_of_nat 195) (String (ascii_of_nat 169) EmptyString)))
  in sanitizeHtml s = s.
Proof. intros s. exact (X10_plain_text_unchanged s eq_refl). Defined.

(** ** Responses with missing parts *)

(** X22: a response with no result set ([query] or [query.pages] missing)
    adds no card and, like every response, hides the initial loader and
    clears [isLoading].  On the first page a missing [query] shows the
    no-results message and sets [hasMore] to false even when a continuation
    is given; otherwise the message is left as it is and [hasMore] falls to
    false only when the continuation is missing.  The cursor takes the
    continuation offset whenever one is given. *)
Theorem X22_response_without_results (st : State) (n : nat) (r : ResponseData) :
  inFlight st = S n → query r ≫= pages = None →
  let st' := step st (Fulfilled r) in
  resultsContainer st' = resultsContainer st ∧
  isLoading st' = false ∧ initialLoaderShown st' = false ∧
  gsroffset st' = default (gsroffset st) (continue r) ∧
  (gsroffset st = 0%Z → query r = None →
     noResultsShown st' = true ∧ hasMore st' = false) ∧
  (gsroffset st ≠ 0%Z ∨ query r ≠ None →
     noResultsShown st' = noResultsShown st ∧
     hasMore st' = match continue r with Some _ => hasMore st | None => false end).
Proof.
  intros Hn Hp st'. subst st'. cbn [step]. rewrite Hn.
  unfold fetchImages_fulfilled, try_block, render_response, advance_cursor.
  rewrite Hp. simpl.
  destruct (Z.eqb_spec (gsroffset st) 0) as [Hz | Hz];
    destruct (query r) as [q |] eqn:Hq; destruct (continue r); simpl;
    repeat split; try done;
    try match goal with H : _ ∨ _ |- _ => by destruct H end.
Qed.

Lemma X22_response_without_results_witness :
  hasMore (step loading_cats (Fulfilled {| query := None; continue := Some 24%Z |})) = false.
Proof.
  destruct (X22_response_without_results loading_cats 0
              {| query := None; continue := Some 24%Z |} eq_refl eq_refl)
    as (_ & _ & _ & _ & Hfirst & _).
  exact (proj2 (Hfirst eq_refl eq_refl)).
Defined.

End PaginationMore.

(** * Further properties of the AI assist controller *)

Module AssistMore.
Import Assist AssistFacts.

(** ** Helpers *)

Lemma run_keeps (P : State → Prop) :
  (∀ st ev, P st → P (step st ev)) → ∀ evs st, P st → P (run st evs).
Proof.
  intros Hstep evs. induction evs as [| ev evs IH]; intros st HP; [done |].
  simpl. apply IH, Hstep, HP.
Qed.

Lemma generate_selection p d c st : same_selection st (generateAiContent p d c st).
Proof.
  unfold same_selection, generateAiContent, request_stream, getAi.
  destruct (currentImageData st) as [img |] eqn:Hi; [| by rewrite Hi].
  destruct (truthy (base64 img)), c, d; simpl;
    destruct (aiClient st), (constructorThrows st); simpl; by rewrite ?Hi.
Qed.

Lemma generate_constructor p d c st :
  constructorThrows (generateAiContent p d c st) = constructorThrows st.
Proof.
  unfold generateAiContent, request_stream, getAi.
  destruct (currentImageData st) as [img |]; [| done].
  destruct (truthy (base64 img)), c, d; simpl;
    destruct (aiClient st), (constructorThrows st) eqn:Hk; simpl; by rewrite ?Hk.
Qed.

Lemma fail_constructor t d e st : constructorThrows (fail t d e st) = constructorThrows st.
Proof. by destruct d. Qed.

Lemma step_constructor st ev : constructorThrows (step st ev) = constructorThrows st.
Proof.
  destruct ev as [data | | | genre | | typed | t b | t e | t result | t e
                 | t | t e | t text | t | t e]; cbn [step].
  - done.
  - done.
  - by destruct (lightboxShown st).
  - apply generate_constructor.
  - apply generate_constructor.
  - unfold handleChatSend. destruct (String.eqb typed EmptyString); [done |].
    by rewrite generate_constructor.
  - destruct (tasks st !! t) as [[] |]; done.
  - destruct (tasks st !! t) as [[? d ? | | |] |]; try done; apply fail_constructor.
  - destruct (tasks st !! t) as [[| p d c b | |] |]; try done. unfold encoded.
    destruct (currentImageData st); [done | apply fail_constructor].
  - destruct (tasks st !! t) as [[| ? d ? ? | |] |]; try done; apply fail_constructor.
  - destruct (tasks st !! t) as [[| | d c |] |]; try done; by destruct c, d.
  - destruct (tasks st !! t) as [[| | d c |] |]; try done; apply fail_constructor.
  - destruct (tasks st !! t) as [[| | | d c full] |]; try done; by destruct c, d.
  - destruct (tasks st !! t) as [[| | | d c full] |]; done.
  - destruct (tasks st !! t) as [[| | | d c full] |]; try done; apply fail_constructor.
Qed.

Lemma fail_selection t d e st : same_selection st (fail t d e st).
Proof. by destruct d. Qed.

Lemma encoded_selection t p d c b data st : same_selection st (encoded t p d c b data st).
Proof.
  unfold encoded. destruct (currentImageData st) as [img |] eqn:Hi.
  - unfold same_selection. simpl. by rewrite Hi.
  - pose proof (fail_selection t d null_write_error st) as H.
    unfold same_selection in *. by rewrite Hi in H.
Qed.

Lemma step_selection st ev : changes_selection ev = false → same_selection st (step st ev).
Proof.
  intros Hev.
  destruct ev as [data | | | genre | | typed | t b | t e | t result | t e
                 | t | t e | t text | t | t e]; try discriminate Hev; cbn [step].
  - apply generate_selection.
  - apply generate_selection.
  - unfold handleChatSend. destruct (String.eqb typed EmptyString); [done |].
    match goal with
    | |- same_selection _ (generateAiContent ?p ?d ?c ?s) =>
        pose proof (generate_selection p d c s) as H
    end.
    unfold same_selection in *. simpl in H. done.
  - destruct (tasks st !! t) as [[] |]; done.
  - destruct (tasks st !! t) as [[? d ? | | |] |]; try done; apply fail_selection.
  - destruct (tasks st !! t) as [[| p d c b | |] |]; try done; apply encoded_selection.
  - destruct (tasks st !! t) as [[| ? d ? ? | |] |]; try done; apply fail_selection.
  - destruct (tasks st !! t) as [[| | d c |] |]; try done; by destruct c, d.
  - destruct (tasks st !! t) as [[| | d c |] |]; try done; apply fail_selection.
  - destruct (tasks st !! t) as [[| | | d c full] |]; try done; by destruct c, d.
  - destruct (tasks st !! t) as [[| | | d c full] |]; done.
  - destruct (tasks st !! t) as [[| | | d c full] |]; try done; apply fail_selection.
Qed.

Lemma step_client st ev :
  (aiClient st = false → idle st) → aiClient (step st ev) = false → idle (step st ev).
Proof.
  intros Hinv.
  assert (∀ p d c s, aiClient s = aiClient st → idle s = idle st →
            aiClient (generateAiContent p d c s) = false →
            idle (generateAiContent p d c s)) as Hgen.
  { intros p d c s Hc Hidle. unfold generateAiContent, request_stream, getAi.
    destruct (currentImageData s) as [img |]; [| by rewrite Hc, Hidle].
    destruct (truthy (base64 img)), c, d; simpl;
      destruct (aiClient s) eqn:Hcs, (constructorThrows s); simpl; rewrite ?Hcs; try done;
      intros _; change (idle s); rewrite Hidle; by apply Hinv. }
  assert (tasks st = ∅ → ∀ t, tasks st !! t = None) as Hnone.
  { intros -> t. apply lookup_empty. }
  destruct ev as [data | | | genre | | typed | t b | t e | t result | t e
                 | t | t e | t text | t | t e]; cbn [step].
  - exact Hinv.
  - exact Hinv.
  - destruct (lightboxShown st); exact Hinv.
  - by apply Hgen.
  - by apply Hgen.
  - unfold handleChatSend. destruct (String.eqb typed EmptyString); [exact Hinv |].
    by apply Hgen.
  - destruct (tasks st !! t) as [k |] eqn:Ht; [| exact Hinv].
    destruct k; try exact Hinv. simpl. intros Hc.
    destruct (Hinv Hc) as (He & _). by rewrite (Hnone He) in Ht.
  - destruct (tasks st !! t) as [k |] eqn:Ht; [| exact Hinv].
    destruct k as [? d ? | | |]; try exact Hinv. intros Hc.
    assert (aiClient st = false) as Hc' by (by destruct d).
    destruct (Hinv Hc') as (He & _). by rewrite (Hnone He) in Ht.
  - destruct (tasks st !! t) as [k |] eqn:Ht; [| exact Hinv].
    destruct k as [| p d c b | |]; try exact Hinv. intros Hc.
    assert (aiClient st = false) as Hc'.
    { revert Hc. unfold encoded. destruct (currentImageData st); [done | by destruct d]. }
    destruct (Hinv Hc') as (He & _). by rewrite (Hnone He) in Ht.
  - destruct (tasks st !! t) as [k |] eqn:Ht; [| exact Hinv].
    destruct k as [| ? d ? ? | |]; try exact Hinv. intros Hc.
    assert (aiClient st = false) as Hc' by (by destruct d).
    destruct (Hinv Hc') as (He & _). by rewrite (Hnone He) in Ht.
  - destruct (tasks st !! t) as [k |] eqn:Ht; [| exact Hinv].
    destruct k as [| | d c |]; try exact Hinv. intros Hc.
    assert (aiClient st = false) as Hc' by (by destruct c, d).
    destruct (Hinv Hc') as (He & _). by rewrite (Hnone He) in Ht.
  - destruct (tasks st !! t) as [k |] eqn:Ht; [| exact Hinv].
    destruct k as [| | d c |]; try exact Hinv. intros Hc.
    assert (aiClient st = false) as Hc' by (by destruct d).
    destruct (Hinv Hc') as (He & _). by rewrite (Hnone He) in Ht.
  - destruct (tasks st !! t) as [k |] eqn:Ht; [| exact Hinv].
    destruct k as [| | | d c full]; try exact Hinv. intros Hc.
    assert (aiClient st = false) as Hc' by (by destruct c, d).
    destruct (Hinv Hc') as (He & _). by rewrite (Hnone He) in Ht.
  - destruct (tasks st !! t) as [k |] eqn:Ht; [| exact Hinv].
    destruct k as [| | | d c full]; try exact Hinv. intros Hc.
    destruct (Hinv Hc) as (He & _). by rewrite (Hnone He) in Ht.
  - destruct (tasks st !! t) as [k |] eqn:Ht; [| exact Hinv].
    destruct k as [| | | d c full]; try exact Hinv. intros Hc.
    assert (aiClient st = false) as Hc' by (by destruct d).
    destruct (Hinv Hc') as (He & _). by rewrite (Hnone He) in Ht.
Qed.

(** ** The viewer and the image reference *)

(** X11: in every state reached from a page whose viewer starts closed, an
    image reference is held exactly while the viewer is shown; so with the
    viewer closed the story and analysis actions do nothing. *)
Theorem X11_image_held_while_viewer_shown (s a c : list Node) (loader throws : bool)
    (evs : list Event) :
  let st := run (initial s a c loader false throws) evs in
  lightboxShown st = negb (missing (currentImageData st)) ∧
  (lightboxShown st = false →
   ∀ genre, step st (GenreClick genre) = st ∧ step st AnalyzeClick = st).
Proof.
  intros st.
  assert (lightboxShown st = negb (missing (currentImageData st))) as Hinv.
  { subst st.
    apply (run_keeps (λ x, lightboxShown x = negb (missing (currentImageData x))));
      [| done].
    intros x ev Hx.
    destruct (changes_selection ev) eqn:Hev.
    - destruct ev; try discriminate Hev; cbn [step]; [done | done |].
      destruct (lightboxShown x) eqn:Hshown; [done | congruence].
    - destruct (step_selection x ev Hev) as [-> ->]. exact Hx. }
  split; [exact Hinv |]. intros Hclosed genre.
  rewrite Hclosed in Hinv.
  destruct (currentImageData st) as [img |] eqn:Hi; [done |].
  cbn [step]. unfold handleGenreClick, handleAnalyzeClick, generateAiContent.
  by rewrite Hi.
Qed.

Lemma X11_image_held_while_viewer_shown_witness :
  step (run (initial [] [] [] false false false) [CardClick sample_image; EscapeKey]) AnalyzeClick
  = run (initial [] [] [] false false false) [CardClick sample_image; EscapeKey].
Proof.
  destruct (X11_image_held_while_viewer_shown [] [] [] false false
              [CardClick sample_image; EscapeKey]) as [_ Hclosed].
  exact (proj2 (Hclosed eq_refl None)).
Defined.

(** ** The loader *)

Lemma step_ai_loader st ev :
  constructorThrows st = false →
  (aiLoaderShown st = true → tasks st ≠ ∅) →
  aiLoaderShown (step st ev) = true → tasks (step st ev) ≠ ∅.
Proof.
  intros Hk Hinv.
  assert (∀ p d c s, client_ready s = true →
            aiLoaderShown s = aiLoaderShown st → tasks s = tasks st →
            aiLoaderShown (generateAiContent p d c s) = true →
            tasks (generateAiContent p d c s) ≠ ∅) as Hgen.
  { intros p d c s Hr Hl Ht.
    destruct (currentImageData s) as [img |] eqn:Hi.
    - intros _. destruct (truthy (base64 img)) eqn:Htr.
      + destruct (generate_cached p d c s img Hi Htr Hr) as (_ & _ & -> & _).
        apply insert_non_empty.
      + destruct (generate_uncached p d c s img Hi Htr Hr) as (_ & _ & -> & _).
        apply insert_non_empty.
    - unfold generateAiContent. rewrite Hi, Hl, Ht. exact Hinv. }
  assert (∀ s, constructorThrows s = false → client_ready s = true) as Hready.
  { intros s Hs. unfold client_ready. rewrite Hs. apply orb_true_r. }
  destruct ev as [data | | | genre | | typed | t b | t e | t result | t e
                 | t | t e | t text | t | t e]; cbn [step].
  - exact Hinv.
  - exact Hinv.
  - destruct (lightboxShown st); exact Hinv.
  - apply Hgen; [by apply Hready | done | done].
  - apply Hgen; [by apply Hready | done | done].
  - unfold handleChatSend. destruct (String.eqb typed EmptyString); [exact Hinv |].
    apply Hgen; [by apply Hready | done | done].
  - destruct (tasks st !! t) as [[] |]; try exact Hinv.
    intros _. simpl. apply insert_non_empty.
  - destruct (tasks st !! t) as [[? d ? | | |] |]; try exact Hinv.
    by destruct (fail_fields t d e st) as (_ & _ & _ & _ & _ & _ & ->).
  - destruct (tasks st !! t) as [[| p d c b | |] |]; try exact Hinv.
    unfold encoded. destruct (currentImageData st).
    + intros _. simpl. apply insert_non_empty.
    + by destruct (fail_fields t d null_write_error st) as (_ & _ & _ & _ & _ & _ & ->).
  - destruct (tasks st !! t) as [[| ? d ? ? | |] |]; try exact Hinv.
    by destruct (fail_fields t d e st) as (_ & _ & _ & _ & _ & _ & ->).
  - destruct (tasks st !! t) as [[| | d c |] |]; try exact Hinv.
    intros _. destruct (stream_opened_fields t d c st) as (_ & -> & _).
    apply insert_non_empty.
  - destruct (tasks st !! t) as [[| | d c |] |]; try exact Hinv.
    by destruct (fail_fields t d e st) as (_ & _ & _ & _ & _ & _ & ->).
  - destruct (tasks st !! t) as [[| | | d c full] |]; try exact Hinv.
    intros _. destruct (chunk_arrived_fields t d c full text st) as (_ & -> & _).
    apply insert_non_empty.
  - destruct (tasks st !! t) as [[| | | d c full] |]; try exact Hinv. done.
  - destruct (tasks st !! t) as [[| | | d c full] |]; try exact Hinv.
    by destruct (fail_fields t d e st) as (_ & _ & _ & _ & _ & _ & ->).
Qed.

(** With a constructor that throws and no client, no call is ever suspended,
    and nothing hides the loader. *)
Lemma step_without_client st ev :
  constructorThrows st = true ∧ aiClient st = false ∧ tasks st = ∅ →
  let st' := step st ev in
  (constructorThrows st' = true ∧ aiClient st' = false ∧ tasks st' = ∅) ∧
  (aiLoaderShown st = true → aiLoaderShown st' = true).
Proof.
  intros (Hk & Hc & Ht).
  assert (∀ p d c s, constructorThrows s = true → aiClient s = false → tasks s = ∅ →
            aiLoaderShown s = aiLoaderShown st →
            let s' := generateAiContent p d c s in
            (constructorThrows s' = true ∧ aiClient s' = false ∧ tasks s' = ∅) ∧
            (aiLoaderShown st = true → aiLoaderShown s' = true)) as Hgen.
  { intros p d c s Hks Hcs Hts Hl.
    destruct (currentImageData s) as [img |] eqn:Hi.
    - assert (client_ready s = false) as Hr by (unfold client_ready; by rewrite Hks, Hcs).
      destruct (generate_refused p d c s img Hi Hr)
        as (_ & _ & Ht' & _ & _ & Hc' & Hk' & Hl' & _).
      simpl. by rewrite Ht', Hts.
    - unfold generateAiContent. rewrite Hi. simpl. by rewrite Hl. }
  assert (∀ t, tasks st !! t = None) as Hnone by (intros t; rewrite Ht; apply lookup_empty).
  destruct ev as [data | | | genre | | typed | t b | t e | t result | t e
                 | t | t e | t text | t | t e]; cbn [step]; rewrite ?Hnone; try done.
  - by destruct (lightboxShown st).
  - by apply Hgen.
  - by apply Hgen.
  - unfold handleChatSend. destruct (String.eqb typed EmptyString); [done |].
    by apply Hgen.
Qed.

(** X12: in every state reached from a page whose loader starts hidden:
    when the client can be made, the AI loader is shown only while some call
    of [generateAiContent] is suspended; when the constructor of the client
    throws, no call is ever suspended, and a story, analysis or chat call
    made with an image selected leaves the loader shown for good, whatever
    comes after. *)
Theorem X12_loader_only_while_a_call_runs (s a c : list Node) (viewer throws : bool)
    (evs : list Event) :
  let st := run (initial s a c false viewer throws) evs in
  (throws = false → aiLoaderShown st = true → tasks st ≠ ∅) ∧
  (throws = true →
   tasks st = ∅ ∧
   ∀ img prompt displayEl isChat evs',
     currentImageData st = Some img →
     let st' := run (generateAiContent prompt displayEl isChat st) evs' in
     aiLoaderShown st' = true ∧ tasks st' = ∅ ∧
     imageRequests st' = [] ∧ streamRequests st' = []).
Proof.
  intros st. split.
  - intros ->. subst st.
    apply (run_keeps (λ x, constructorThrows x = false ∧
                           (aiLoaderShown x = true → tasks x ≠ ∅))); [| done].
    intros x ev [Hk Hx]. split; [by rewrite step_constructor |].
    by apply step_ai_loader.
  - intros ->.
    assert (constructorThrows st = true ∧ aiClient st = false ∧ tasks st = ∅) as Hst.
    { subst st.
      apply (run_keeps (λ x, constructorThrows x = true ∧ aiClient x = false ∧ tasks x = ∅));
        [| done].
      intros x ev Hx. apply (step_without_client x ev Hx). }
    split; [apply Hst |].
    intros img prompt displayEl isChat evs' Hi st'.
    destruct Hst as (Hk & Hc & Ht).
    assert (client_ready st = false) as Hr by (unfold client_ready; by rewrite Hk, Hc).
    destruct (generate_refused prompt displayEl isChat st img Hi Hr)
      as (_ & Hir & Ht' & _ & Hsr & Hc' & Hk' & Hl' & _).
    assert ((constructorThrows st' = true ∧ aiClient st' = false ∧ tasks st' = ∅) ∧
            aiLoaderShown st' = true) as [(_ & Hc'' & Ht'') Hl''].
    { subst st'.
      apply (run_keeps (λ x, (constructorThrows x = true ∧ aiClient x = false ∧ tasks x = ∅) ∧
                             aiLoaderShown x = true)).
      - intros x ev [Hx Hlx]. destruct (step_without_client x ev Hx) as [Hx' Hlx'].
        split; [exact Hx' | by apply Hlx'].
      - by rewrite Ht', Ht. }
    split; [exact Hl'' |]. split; [exact Ht'' |].
    assert (aiClient st' = false → idle st') as Hidle.
    { subst st'.
      apply (run_keeps (λ x, aiClient x = false → idle x)); [intros x ev; apply step_client |].
      intros _. unfold idle. rewrite Ht', Ht, Hir, Hsr.
      assert (aiClient st = false → idle st) as Hidle0.
      { subst st. apply (run_keeps (λ x, aiClient x = false → idle x));
          [intros x ev; apply step_client | done]. }
      destruct (Hidle0 Hc) as (_ & -> & ->). done. }
    destruct (Hidle Hc'') as (_ & -> & ->). done.
Qed.

(** With a client that can be made, the loader is shown while the analysis
    call is suspended; with a constructor that throws, the loader is shown
    with no call suspended, and closing the viewer does not hide it. *)
Lemma X12_loader_only_while_a_call_runs_witness :
  (aiLoaderShown (run (initial [] [] [] false false false) [CardClick sample_image; AnalyzeClick])
   = true ∧
   tasks (run (initial [] [] [] false false false) [CardClick sample_image; AnalyzeClick]) ≠ ∅) ∧
  (aiLoaderShown
     (run (generateAiContent "Describe" analysisDisplay false
             (run (initial [] [] [] false false true) [CardClick sample_image]))
        [CloseClick]) = true ∧
   tasks
     (run (generateAiContent "Describe" analysisDisplay false
             (run (initial [] [] [] false false true) [CardClick sample_image]))
        [CloseClick]) = ∅).
Proof.
  split.
  - split; [reflexivity |].
    exact (proj1 (X12_loader_only_while_a_call_runs [] [] [] false false
                    [CardClick sample_image; AnalyzeClick]) eq_refl eq_refl).
  - destruct (proj2 (X12_loader_only_while_a_call_runs [] [] [] false true
                       [CardClick sample_image]) eq_refl) as [_ Hstuck].
    destruct (Hstuck {| url := "https://upload.example/sunset.jpg"; title := "Sunset";
                        mimeType := None; base64 := None |}
                "Describe" analysisDisplay false [CloseClick] eq_refl) as (Hl & Ht & _).
    split; [exact Hl | exact Ht].
Defined.

(** ** Which pane an event writes *)

Lemma generate_panes prompt d c st p :
  p ≠ d → pane p (generateAiContent prompt d c st) = pane p st.
Proof.
  intros Hp. unfold generateAiContent, request_stream, getAi.
  destruct (currentImageData st) as [img |]; [| done].
  destruct (truthy (base64 img)), c, d, p; simpl;
    destruct (aiClient st), (constructorThrows st); done.
Qed.

Lemma fail_panes t d e st p : p ≠ d → pane p (fail t d e st) = pane p st.
Proof. intros Hp. by destruct d, p. Qed.

Lemma only_pane (p d : Pane) : p ∉ [d] → p ≠ d.
Proof. intros H ->. apply H. by left. Qed.

(** X13: an event leaves every pane alone but its own: the story, analysis
    and chat actions write only to their pane, and the settlement of a
    call's promise writes only to that call's pane, whatever way it
    settles. *)
Theorem X13_event_writes_own_pane (st : State) (ev : Event) (p : Pane) :
  p ∉ written_panes st ev → pane p (step st ev) = pane p st.
Proof.
  intros Hp.
  destruct ev as [data | | | genre | | typed | t b | t e | t result | t e
                 | t | t e | t text | t | t e]; cbn [step written_panes] in *.
  - exfalso. apply Hp. destruct p; set_solver.
  - by destruct p.
  - destruct (lightboxShown st); by destruct p.
  - apply generate_panes. by apply only_pane.
  - apply generate_panes. by apply only_pane.
  - apply only_pane in Hp. unfold handleChatSend.
    destruct (String.eqb typed EmptyString); [done |].
    rewrite generate_panes by done. by destruct p.
  - destruct (tasks st !! t) as [[] |]; by destruct p.
  - destruct (tasks st !! t) as [[? d ? | | |] |]; try done.
    apply fail_panes. by apply only_pane.
  - destruct (tasks st !! t) as [[| prompt d c b | |] |]; try done.
    apply only_pane in Hp. simpl in Hp. unfold encoded.
    destruct (currentImageData st); [by destruct p | by apply fail_panes].
  - destruct (tasks st !! t) as [[| ? d ? ? | |] |]; try done.
    apply fail_panes. by apply only_pane.
  - destruct (tasks st !! t) as [[| | d c |] |]; try done.
    apply only_pane in Hp. simpl in Hp. by destruct c, d, p.
  - destruct (tasks st !! t) as [[| | d c |] |]; try done.
    apply fail_panes. by apply only_pane.
  - destruct (tasks st !! t) as [[| | | d c full] |]; try done.
    apply only_pane in Hp. simpl in Hp. by destruct c, d, p.
  - destruct (tasks st !! t) as [[| | | d c full] |]; by destruct p.
  - destruct (tasks st !! t) as [[| | | d c full] |]; try done.
    apply fail_panes. by apply only_pane.
Qed.

Lemma X13_event_writes_own_pane_witness :
  pane analysisDisplay (step story_requested (StreamRefused 0 {| message := Some "quota" |}))
  = pane analysisDisplay story_requested.
Proof.
  apply (X13_event_writes_own_pane story_requested
           (StreamRefused 0 {| message := Some "quota" |}) analysisDisplay).
  vm_compute. intros H. apply list_elem_of_In in H. simpl in H. by destruct H.
Defined.

(** X14: when a chunk arrives for a call that answers in the chat, the chat
    keeps its length, every node that is not the call's own message stays as
    it is, and the call's message holds the text accumulated so far. *)
Theorem X14_chunk_touches_own_message (st : State) (t : nat) (d : Pane) (acc : string)
    (text : option string) (i : nat) (n : Node) :
  tasks st !! t = Some (Streaming d true acc) → pane d st !! i = Some n →
  let st' := step st (ChunkArrived t text) in
  length (pane d st') = length (pane d st) ∧
  (held_by t n = false → pane d st' !! i = Some n) ∧
  (∀ className old, n = Div (Some t) className old →
     pane d st' !! i = Some (Div (Some t) className (acc +:+ js_string text))).
Proof.
  intros Ht Hn st'. subst st'. rewrite (chunk_step _ _ _ _ _ _ Ht).
  destruct (chunk_arrived_fields t d true acc text st) as (_ & _ & _ & _ & _ & ->).
  rewrite length_fmap, list_lookup_fmap, Hn. split; [done |]. split.
  - intros Hheld. simpl. f_equal.
    destruct n as [| | [t' |] className old]; try done.
    simpl in Hheld. simpl. by rewrite Hheld.
  - intros className old ->. simpl. by rewrite Nat.eqb_refl.
Qed.

Lemma X14_chunk_touches_own_message_witness :
  let st := run viewing [ChatSend "Where is this?"; ImageFetched 0 "image/jpeg";
                         ReaderLoaded 0 "data:image/jpeg;base64,QUJD"; StreamOpened 0] in
  pane chatHistory (step st (ChunkArrived 0 (Some "A bay"))) !! 1
  = Some (Div None "chat-msg user-msg" "You: Where is this?").
Proof.
  intros st.
  refine (proj1 (proj2 (X14_chunk_touches_own_message st 0 chatHistory EmptyString
                          (Some "A bay") 1
                          (Div None "chat-msg user-msg" "You: Where is this?") _ _)) eq_refl).
  - vm_compute. reflexivity.
  - vm_compute. reflexivity.
Defined.

(** ** The encoding *)

Lemma after_comma_skip (a rest : string) :
  comma_free a = true → after_comma (a +:+ rest) = after_comma rest.
Proof.
  induction a as [| x a IH]; [done |].
  change (comma_free (String x a)) with (negb (Ascii.eqb x ",") && comma_free a).
  intros H. apply andb_true_iff in H as [Hx Ha]. apply negb_true_iff in Hx.
  change (after_comma (String x (a +:+ rest)) = after_comma rest).
  simpl. rewrite Hx. by apply IH.
Qed.

Lemma up_to_comma_all (a : string) : comma_free a = true → up_to_comma a = a.
Proof.
  induction a as [| x a IH]; [done |].
  change (comma_free (String x a)) with (negb (Ascii.eqb x ",") && comma_free a).
  intros H. apply andb_true_iff in H as [Hx Ha]. apply negb_true_iff in Hx.
  simpl. rewrite Hx. by rewrite IH.
Qed.

Lemma split_data_url (blobType payload : string) :
  comma_free blobType = true → comma_free payload = true →
  split_comma_1 (data_url blobType payload) = Some payload.
Proof.
  intros Hb Hp. unfold split_comma_1, data_url.
  change (after_comma ("data:" +:+ blobType +:+ ";base64," +:+ payload))
    with (after_comma (blobType +:+ ";base64," +:+ payload)).
  rewrite (after_comma_skip blobType _ Hb). simpl. by rewrite up_to_comma_all.
Qed.

(** X15: when the download of a call gives a blob of some type and the
    reader gives its data URL, the image reference selected gets exactly the
    blob's type as [mimeType] and the URL's payload as [base64], and the
    generation request is sent with these two and the call's prompt. *)
Theorem X15_data_url_payload_stored (st : State) (t : nat) (prompt : string) (d : Pane)
    (c : bool) (img : ImageData) (blobType payload : string) :
  tasks st !! t = Some (AwaitImage prompt d c) → currentImageData st = Some img →
  comma_free blobType = true → comma_free payload = true →
  let st' := run st [ImageFetched t blobType; ReaderLoaded t (data_url blobType payload)] in
  currentImageData st' = Some (store_encoding blobType (Some payload) img) ∧
  last (streamRequests st')
  = Some {| part_mimeType := Some blobType; part_data := Some payload;
            part_text := prompt |} ∧
  tasks st' !! t = Some (AwaitStream d c).
Proof.
  intros Ht Hi Hb Hp st'. subst st'. cbn [run foldl step]. rewrite Ht.
  cbn [tasks set_tasks]. rewrite lookup_insert_eq.
  unfold encoded. cbn [currentImageData set_tasks]. rewrite Hi.
  rewrite (split_data_url _ _ Hb Hp). unfold request_stream.
  cbn [currentImageData streamRequests tasks set_tasks set_streamRequests
       set_currentImageData mimeType base64 store_encoding].
  split; [done |]. split; [apply last_snoc |]. apply lookup_insert_eq.
Qed.

Lemma X15_data_url_payload_stored_witness :
  currentImageData
    (run (run viewing [AnalyzeClick])
       [ImageFetched 0 "image/png"; ReaderLoaded 0 (data_url "image/png" "iVBORw0KGgo=")])
  = Some (store_encoding "image/png" (Some "iVBORw0KGgo=")
            {| url := "https://upload.example/sunset.jpg"; title := "Sunset";
               mimeType := None; base64 := None |}).
Proof.
  refine (proj1 (X15_data_url_payload_stored (run viewing [AnalyzeClick]) 0 _ analysisDisplay
                   false _ "image/png" "iVBORw0KGgo=" _ _ eq_refl eq_refl)).
  - vm_compute. reflexivity.
  - vm_compute. reflexivity.
Defined.

(** X16: when the reader's result has no payload (no comma, or nothing
    after it), the call still goes on: [mimeType] is stored, [base64] is
    stored as it came (undefined or empty), the generation request is sent
    with it, and since line 96 takes such an encoding for none, the next call
    (the client being there or makeable) downloads the image again. *)
Theorem X16_reading_without_payload (st : State) (t : nat) (prompt : string) (d : Pane)
    (c : bool) (blobType : string) (img : ImageData) (result : string) :
  tasks st !! t = Some (AwaitReader prompt d c blobType) →
  currentImageData st = Some img →
  truthy (split_comma_1 result) = false →
  let st' := step st (ReaderLoaded t result) in
  currentImageData st' = Some (store_encoding blobType (split_comma_1 result) img) ∧
  cached st' = false ∧
  streamRequests st' = streamRequests st ++
    [{| part_mimeType := Some blobType; part_data := split_comma_1 result;
        part_text := prompt |}] ∧
  (client_ready st = true →
   ∀ prompt' d' c',
     imageRequests (generateAiContent prompt' d' c' st') = imageRequests st ++ [url img]).
Proof.
  intros Ht Hi Hempty st'.
  assert (st' = request_stream t prompt d c
                  (store_encoding blobType (split_comma_1 result) img)
                  (set_currentImageData
                     (Some (store_encoding blobType (split_comma_1 result) img)) st)) as ->.
  { subst st'. cbn [step]. rewrite Ht. unfold encoded. by rewrite Hi. }
  split; [done |]. split; [unfold cached; simpl; exact Hempty |]. split; [done |].
  intros Hready prompt' d' c'.
  match goal with
  | |- imageRequests (generateAiContent _ _ _ ?s) = _ =>
      destruct (generate_uncached prompt' d' c' s
                  (store_encoding blobType (split_comma_1 result) img))
        as (_ & -> & _); done
  end.
Qed.

Lemma X16_reading_without_payload_witness :
  let st := run viewing [AnalyzeClick; ImageFetched 0 "image/jpeg"] in
  cached (step st (ReaderLoaded 0 "data:")) = false ∧
  imageRequests (generateAiContent "Again" analysisDisplay false
                   (step st (ReaderLoaded 0 "data:")))
  = imageRequests st ++ ["https://upload.example/sunset.jpg"].
Proof.
  intros st.
  destruct (X16_reading_without_payload st 0
              "Analyze this image. Identify the key subjects, the artistic or photographic style, the likely time period or location if applicable, and any interesting hidden details you see. Be concise and use bullet points."
              analysisDisplay false "image/jpeg"
              {| url := "https://upload.example/sunset.jpg"; title := "Sunset";
                 mimeType := None; base64 := None |} "data:")
    as (_ & Hc & _ & Hagain).
  - vm_compute. reflexivity.
  - vm_compute. reflexivity.
  - reflexivity.
  - split; [exact Hc | exact (Hagain eq_refl "Again" analysisDisplay false)].
Defined.

(** X17: the encoding goes to the image selected when the reader finishes,
    not to the image the download was started for: if another card is opened
    while a call (made with the client there or makeable) is downloading,
    the only download issued is that of the
    first image, and its type and payload are stored on the reference of the
    second and sent with the request. *)
Theorem X17_encoding_lands_on_current_image (st : State) (img : ImageData) (prompt : string)
    (d : Pane) (c : bool) (data : LightboxData) (blobType result : string) :
  currentImageData st = Some img → truthy (base64 img) = false → client_ready st = true →
  let t := nextTask st in
  let st' := run (generateAiContent prompt d c st)
               [CardClick data; ImageFetched t blobType; ReaderLoaded t result] in
  imageRequests st' = imageRequests st ++ [url img] ∧
  currentImageData st'
  = Some {| url := ld_url data; title := ld_title data;
            mimeType := Some blobType; base64 := split_comma_1 result |} ∧
  last (streamRequests st')
  = Some {| part_mimeType := Some blobType; part_data := split_comma_1 result;
            part_text := prompt |}.
Proof.
  intros Hi Ht Hready t st'.
  destruct (generate_uncached prompt d c st img Hi Ht Hready) as (_ & Hr1 & Ht1 & _ & _).
  fold t in Ht1.
  set (st1 := generateAiContent prompt d c st) in *.
  subst st'. cbn [run foldl step].
  assert (tasks (openLightbox data st1) = tasks st1) as Hopen by done.
  rewrite Hopen, Ht1, lookup_insert_eq.
  cbn [tasks set_tasks]. rewrite lookup_insert_eq.
  unfold encoded, request_stream. simpl.
  split; [exact Hr1 |]. split; [done |]. apply last_snoc.
Qed.

Lemma X17_encoding_lands_on_current_image_witness :
  currentImageData
    (run (generateAiContent "Describe" analysisDisplay false viewing)
       [CardClick {| ld_url := "https://upload.example/dawn.jpg"; ld_title := "Dawn";
                     ld_author := "Uploader: Ada";
                     ld_thumb := "https://upload.example/dawn-thumb.jpg" |};
        ImageFetched (nextTask viewing) "image/jpeg";
        ReaderLoaded (nextTask viewing) "data:image/jpeg;base64,QUJD"])
  = Some {| url := "https://upload.example/dawn.jpg"; title := "Dawn";
            mimeType := Some "image/jpeg";
            base64 := split_comma_1 "data:image/jpeg;base64,QUJD" |}.
Proof.
  refine (proj1 (proj2 (X17_encoding_lands_on_current_image viewing
                          {| url := "https://upload.example/sunset.jpg"; title := "Sunset";
                             mimeType := None; base64 := None |}
                          "Describe" analysisDisplay false _ "image/jpeg"
                          "data:image/jpeg;base64,QUJD" eq_refl eq_refl eq_refl))).
Defined.

(** X18: if the viewer is closed while a call (made with the client there
    or makeable) is downloading the image, no generation request is sent when the download and the reading finish:
    the write of line 98 throws, the call ends, the error paragraph is the
    last thing in its pane, the loader is hidden, and no image is
    selected. *)
Theorem X18_closed_while_downloading (st : State) (img : ImageData) (prompt : string)
    (d : Pane) (c : bool) (blobType result : string) :
  currentImageData st = Some img → truthy (base64 img) = false → client_ready st = true →
  let t := nextTask st in
  let st' := run (generateAiContent prompt d c st)
               [CloseClick; ImageFetched t blobType; ReaderLoaded t result] in
  streamRequests st' = streamRequests st ∧ currentImageData st' = None ∧
  tasks st' !! t = None ∧ aiLoaderShown st' = false ∧
  last (pane d st') = Some (Markup (error_markup null_write_error)).
Proof.
  intros Hi Ht Hready t st'.
  destruct (generate_uncached prompt d c st img Hi Ht Hready) as (_ & _ & Ht1 & _ & Hs1).
  fold t in Ht1.
  set (st1 := generateAiContent prompt d c st) in *.
  subst st'. cbn [run foldl step].
  assert (tasks (closeLightbox st1) = tasks st1) as Hclose by done.
  rewrite Hclose, Ht1, lookup_insert_eq.
  cbn [tasks set_tasks]. rewrite lookup_insert_eq.
  unfold encoded. cbn [currentImageData set_tasks closeLightbox set_currentImageData].
  match goal with
  | |- context [fail t d null_write_error ?s] =>
      destruct (fail_fields t d null_write_error s) as (Hfi & Hft & _ & _ & Hfs & Hfp & Hfl)
  end.
  rewrite Hfi, Hft, Hfs, Hfp, Hfl.
  split; [exact Hs1 |]. split; [done |]. split; [apply lookup_delete_eq |].
  split; [done |]. unfold append_markup. apply last_snoc.
Qed.

Lemma X18_closed_while_downloading_witness :
  streamRequests
    (run (generateAiContent "Describe" analysisDisplay false viewing)
       [CloseClick; ImageFetched (nextTask viewing) "image/jpeg";
        ReaderLoaded (nextTask viewing) "data:image/jpeg;base64,QUJD"])
  = streamRequests viewing.
Proof.
  refine (proj1 (X18_closed_while_downloading viewing
                   {| url := "https://upload.example/sunset.jpg"; title := "Sunset";
                      mimeType := None; base64 := None |}
                   "Describe" analysisDisplay false "image/jpeg"
                   "data:image/jpeg;base64,QUJD" eq_refl eq_refl eq_refl)).
Defined.

(** ** The client *)

(** X19: the client is made on first use and not before: in every state
    reached from the loaded page, as long as no client has been made, no
    call is suspended and no image download or generation request has been
    issued. *)
Theorem X19_no_request_before_client (s a c : list Node) (loader viewer throws : bool)
    (evs : list Event) :
  let st := run (initial s a c loader viewer throws) evs in
  aiClient st = false →
  tasks st = ∅ ∧ imageRequests st = [] ∧ streamRequests st = [].
Proof.
  intros st. subst st.
  apply (run_keeps (λ x, aiClient x = false → idle x)); [| done].
  intros x ev. apply step_client.
Qed.

Lemma X19_no_request_before_client_witness :
  imageRequests (run (initial [] [] [] false false false)
                   [AnalyzeClick; CardClick sample_image; CloseClick; ChatSend "hello"])
  = [].
Proof.
  exact (proj1 (proj2 (X19_no_request_before_client [] [] [] false false false
                         [AnalyzeClick; CardClick sample_image; CloseClick; ChatSend "hello"]
                         eq_refl))).
Defined.

(** ** The chat *)

(** X20: a chat message that is not empty is always added to the chat as
    the user's line, after what the chat holds, and the other two panes are
    left alone; with no image selected nothing else happens; with an image
    and the client there or makeable, the call is started for the chat
    without the chat being cleared; with an image and a client that cannot
    be made, the loader is shown and nothing is requested or suspended. *)
Theorem X20_chat_line_appended (st : State) (typed : string) :
  typed ≠ EmptyString →
  let st' := step st (ChatSend typed) in
  let line := Div None "chat-msg user-msg" ("You: " +:+ typed) in
  chat st' = chat st ++ [line] ∧ story st' = story st ∧ analysis st' = analysis st ∧
  (currentImageData st = None → st' = set_pane chatHistory (chat st ++ [line]) st) ∧
  (∀ img, currentImageData st = Some img → client_ready st = true →
     tasks st' !! nextTask st
     = Some (if truthy (base64 img) then AwaitStream chatHistory true
             else AwaitImage ("Answer this question about the provided image: " +:+ typed)
                    chatHistory true)) ∧
  (∀ img, currentImageData st = Some img → client_ready st = false →
     aiLoaderShown st' = true ∧ tasks st' = tasks st ∧
     imageRequests st' = imageRequests st ∧ streamRequests st' = streamRequests st).
Proof.
  intros Hne st' line. apply String.eqb_neq in Hne.
  subst st'. cbn [step]. unfold handleChatSend. rewrite Hne.
  cbn [pane]. fold line.
  set (st1 := set_pane chatHistory (chat st ++ [line]) st).
  set (prompt := "Answer this question about the provided image: " +:+ typed).
  assert (∀ p, pane p (generateAiContent prompt chatHistory true st1) = pane p st1) as Hpanes.
  { intros p. unfold generateAiContent, request_stream, getAi.
    destruct (currentImageData st1) as [img |]; [| done].
    destruct (truthy (base64 img)), p; simpl;
      destruct (aiClient st), (constructorThrows st); done. }
  split; [exact (Hpanes chatHistory) |]. split; [exact (Hpanes storyDisplay) |].
  split; [exact (Hpanes analysisDisplay) |]. split; [| split].
  - intros Hi. unfold generateAiContent.
    assert (currentImageData st1 = None) as -> by done. done.
  - intros img Hi Hready.
    assert (currentImageData st1 = Some img) as Hi1 by done.
    assert (client_ready st1 = true) as Hready1 by done.
    destruct (truthy (base64 img)) eqn:Htr.
    + destruct (generate_cached prompt chatHistory true st1 img Hi1 Htr Hready1)
        as (_ & _ & -> & _).
      apply lookup_insert_eq.
    + destruct (generate_uncached prompt chatHistory true st1 img Hi1 Htr Hready1)
        as (_ & _ & -> & _).
      apply lookup_insert_eq.
  - intros img Hi Hrefused.
    assert (currentImageData st1 = Some img) as Hi1 by done.
    assert (client_ready st1 = false) as Hrefused1 by done.
    destruct (generate_refused prompt chatHistory true st1 img Hi1 Hrefused1)
      as (_ & -> & -> & _ & -> & _ & _ & -> & _).
    done.
Qed.

(** A question asked with the viewer open on the sample image: the line is
    added and the call is suspended on the download of the image. *)
Lemma X20_chat_line_appended_witness :
  chat (step viewing (ChatSend "hello"))
  = chat viewing ++ [Div None "chat-msg user-msg" ("You: " +:+ "hello")] ∧
  tasks (step viewing (ChatSend "hello")) !! nextTask viewing
  = Some (AwaitImage ("Answer this question about the provided image: " +:+ "hello")
            chatHistory true).
Proof.
  destruct (X20_chat_line_appended viewing "hello" ltac:(discriminate))
    as (Hchat & _ & _ & _ & Hcall & _).
  split; [exact Hchat |].
  exact (Hcall {| url := "https://upload.example/sunset.jpg"; title := "Sunset";
                  mimeType := None; base64 := None |} eq_refl eq_refl).
Defined.

(** ** A stream that breaks *)

(** X21: when the stream of a call that writes its pane directly breaks
    after chunks have arrived, the pane keeps the text received so far and
    the error paragraph comes after it; the call ends and the loader is
    hidden. *)
Theorem X21_broken_stream_keeps_text (st : State) (t : nat) (d : Pane)
    (chunks : list string) (e : JsError) :
  tasks st !! t = Some (AwaitStream d false) → chunks ≠ [] →
  let st' := run st (StreamOpened t :: chunk_events t chunks ++ [StreamBroke t e]) in
  pane d st' = [TextNode (concatenation chunks); Markup (error_markup e)] ∧
  tasks st' !! t = None ∧ aiLoaderShown st' = false.
Proof.
  intros Ht Hne st'. subst st'.
  change (run st (StreamOpened t :: chunk_events t chunks ++ [StreamBroke t e]))
    with (run (step st (StreamOpened t)) (chunk_events t chunks ++ [StreamBroke t e])).
  unfold run. rewrite foldl_app. cbn [foldl]. fold (run (step st (StreamOpened t))
                                                    (chunk_events t chunks)).
  assert (step st (StreamOpened t) = stream_opened t d false st) as ->
    by (cbn [step]; by rewrite Ht).
  destruct (stream_opened_fields t d false st) as (_ & Hts & _).
  assert (tasks (stream_opened t d false st) !! t = Some (Streaming d false EmptyString))
    as Ht1 by (by rewrite Hts, lookup_insert_eq).
  destruct (run_chunks t d false chunks (stream_opened t d false st) EmptyString Ht1)
    as (Hfull & Htext & _).
  specialize (Htext eq_refl Hne). simpl in Hfull, Htext.
  set (st2 := run (stream_opened t d false st) (chunk_events t chunks)) in *.
  cbn [step]. rewrite Hfull.
  destruct (fail_fields t d e st2) as (_ & -> & _ & _ & _ & -> & ->).
  rewrite Htext. split; [done |]. split; [apply lookup_delete_eq | done].
Qed.

Lemma X21_broken_stream_keeps_text_witness :
  pane storyDisplay
    (run story_requested
       (StreamOpened 0 :: chunk_events 0 ["Once"; "upon"]
          ++ [StreamBroke 0 {| message := Some "network error" |}]))
  = [TextNode (concatenation ["Once"; "upon"]);
     Markup (error_markup {| message := Some "network error" |})].
Proof.
  refine (proj1 (X21_broken_stream_keeps_text story_requested 0 storyDisplay
                   ["Once"; "upon"] {| message := Some "network error" |} _ _)).
  - vm_compute. reflexivity.
  - discriminate.
Defined.

(** ** The loader with two calls *)

(** X23: the loader is hidden as soon as one call ends, also while another
    call is still suspended: the end of a stream hides it and leaves every
    other call as it was. *)
Theorem X23_loader_hidden_by_first_ending (st : State) (t t' : nat) (d : Pane) (c : bool)
    (full : string) (k : Task) :
  tasks st !! t = Some (Streaming d c full) → t' ≠ t → tasks st !! t' = Some k →
  let st' := step st (StreamEnded t) in
  aiLoaderShown st' = false ∧ tasks st' !! t' = Some k ∧ tasks st' !! t = None ∧
  (∀ p, pane p st' = pane p st).
Proof.
  intros Ht Hne Hk st'. subst st'. cbn [step]. rewrite Ht.
  destruct (stream_ended_fields t st) as (_ & -> & _ & _ & _ & ->).
  split; [done |]. split; [by rewrite lookup_delete_ne |].
  split; [apply lookup_delete_eq |]. intros p. by destruct p.
Qed.

Lemma X23_loader_hidden_by_first_ending_witness :
  let st := run story_requested [AnalyzeClick; StreamOpened 0] in
  aiLoaderShown (step st (StreamEnded 0)) = false ∧
  tasks (step st (StreamEnded 0)) !! 1 = Some (AwaitStream analysisDisplay false).
Proof.
  intros st.
  destruct (X23_loader_hidden_by_first_ending st 0 1 storyDisplay false EmptyString
              (AwaitStream analysisDisplay false)) as (Hl & Hk & _).
  - vm_compute. reflexivity.
  - discriminate.
  - vm_compute. reflexivity.
  - split; [exact Hl | exact Hk].
Defined.

End AssistMore.
